(** * FROST-BIP340: the participant of [frost/participant.py]

    A shallow embedding of the [Participant] class: the object is a record,
    every method is a computation in a state-and-exception monad over that
    record and a source of random bits, and the collaborators that live in
    other modules of the package (curve points, SHA-256, the aggregator) are
    an interface. *)

From Stdlib Require Import ZArith List Lia Bool String Strings.Byte Zpow_facts.
Import ListNotations.

Local Open Scope string_scope.
Local Open Scope list_scope.
Local Open Scope Z_scope.

(** ** Constants and Python primitives *)

(** Modelled from the spec: [frost.constants.Q], which the spec fixes as the
    order of secp256k1. *)
Definition Q : Z :=
  0xFFFFFFFFFFFFFFFFFFFFFFFFFFFFFFFEBAAEDCE6AF48A03BBFD25E8CD0364141.

Definition bytes := list byte.

(** The exceptions the module lets escape, with their messages. *)
Inductive exn : Type :=
| ValueError (msg : string)
| TypeError (msg : string)
| AttributeError (msg : string)
| IndexError (msg : string)
| OverflowError (msg : string).

Definition Result (A : Type) : Type := (exn + A)%type.
Abbreviation Ok := inr.
Abbreviation Err := inl.

(** [CONTEXT = b"FROST-BIP340"] *)
Definition CONTEXT : bytes := list_byte_of_string "FROST-BIP340".

(** [i.to_bytes(1, "big")] *)
Definition to_bytes_1 (i : Z) : Result bytes :=
  if i <? 0 then Err (OverflowError "can't convert negative int to unsigned")
  else match Byte.of_N (Z.to_N i) with
       | Some b => Ok [b]
       | None => Err (OverflowError "int too big to convert")
       end.

(** [int.from_bytes(bs, "big")] *)
Definition int_from_bytes (bs : bytes) : Z :=
  fold_left (fun acc b => acc * 256 + Z.of_N (Byte.to_N b)) bs 0.

(** [pow(b, e, m)] for a non-negative exponent, by squaring as the
    interpreter computes it.  The module only calls it with [e = Q - 2]. *)
Definition pow (b e m : Z) : Z := Zpow_mod b e m.

(** [sum(xs)] *)
Definition sum (xs : list Z) : Z := fold_left Z.add xs 0.

(** [len(xs)] *)
Definition len {A : Type} (xs : list A) : Z := Z.of_nat (List.length xs).

(** [len(set(xs))] for a tuple of integers. *)
Definition set (xs : list Z) : list Z := nodup Z.eq_dec xs.

(** [xs[i]] on a tuple, with Python's negative indices and [IndexError]. *)
Definition getitem {A : Type} (xs : list A) (i : Z) : Result A :=
  let j := if i <? 0 then i + len xs else i in
  if j <? 0 then Err (IndexError "tuple index out of range")
  else match nth_error xs (Z.to_nat j) with
       | Some v => Ok v
       | None => Err (IndexError "tuple index out of range")
       end.

(** A value handed to the constructor: the source tests [isinstance(_, int)]. *)
Inductive pyval : Type :=
| PyInt (z : Z)
| PyOther (repr : string).

Definition isinstance_int (v : pyval) : bool :=
  match v with PyInt _ => true | PyOther _ => false end.

(** ** The collaborators

    [frost.point], [hashlib.sha256] and [frost.aggregator] are outside this
    module; the participant only calls them. *)

(** Modelled from the spec: the curve primitive (a group element type with
    addition, scalar multiplication, equality, a distinguished identity, a
    generator, affine coordinates that are unset on the identity, and SEC
    serialization), the hash primitive and the aggregator's three
    computations. *)
Class Collaborators : Type := {
  Point : Type;
  infinity : Point;                          (* Point() *)
  G : Point;
  padd : Point -> Point -> Point;            (* P + R *)
  pmul : Z -> Point -> Point;                (* k * P *)
  peqb : Point -> Point -> bool;             (* P == R *)
  point_x : Point -> option Z;               (* P.x *)
  point_y : Point -> option Z;               (* P.y *)
  sec_serialize : Point -> Result bytes;     (* P.sec_serialize() *)
  sha256 : bytes -> bytes;                   (* sha256(b).digest() *)
  group_commitment :
    bytes -> list (Point * Point) -> list Z -> Point;
  challenge_hash : Point -> Point -> bytes -> Z;
  binding_value :
    Z -> bytes -> list (Point * Point) -> list Z -> Z
}.

(** Modelled from the spec: what the proof of knowledge uses of the curve,
    namely that scalar multiplication is an action of the integers, that the
    generator has order [Q], and that [==] decides equality of points. *)
Class CurveLaws (C : Collaborators) : Prop := {
  pmul_pmul : forall a b P, pmul a (pmul b P) = pmul (a * b) P;
  pmul_padd : forall a b P, padd (pmul a P) (pmul b P) = pmul (a + b) P;
  pmul_G_inj : forall a b, pmul a G = pmul b G <-> a mod Q = b mod Q;
  peqb_eq : forall P R, peqb P R = true <-> P = R
}.

(** ** The participant object *)

Section Participant.

Context {C : Collaborators}.

(** The attributes [__init__] creates, in its order. *)
Record Participant : Type := mkParticipant {
  index : Z;
  threshold : Z;
  participants : Z;
  coefficients : option (list Z);
  coefficient_commitments : option (list Point);
  proof_of_knowledge : option (Point * Z);
  shares : option (list Z);
  aggregate_share : option Z;
  nonce_pair : option (Z * Z);
  nonce_commitment_pair : option (Point * Point);
  public_key : option Point;
  repair_shares : option (list Z);
  aggregate_repair_share : option Z;
  nonce_pair_r_ij : option (Z * Point);
  nonce_R_ij_commitments : list bytes;
  nonce_R_ij : list Point;
  aggregate_nonce_R_i : option Point;
  challenge_hash_c : option bytes;
  participant_a_i : option Z;
  agg_pk : option Point;
  partial_signature_s_ij : option Z
}.

(** Attribute assignments, one per attribute the methods below write. *)
Definition set_threshold (v : Z) (p : Participant) : Participant :=
  mkParticipant (index p) v (participants p) (coefficients p)
    (coefficient_commitments p) (proof_of_knowledge p) (shares p)
    (aggregate_share p) (nonce_pair p) (nonce_commitment_pair p)
    (public_key p) (repair_shares p) (aggregate_repair_share p)
    (nonce_pair_r_ij p) (nonce_R_ij_commitments p) (nonce_R_ij p)
    (aggregate_nonce_R_i p) (challenge_hash_c p) (participant_a_i p)
    (agg_pk p) (partial_signature_s_ij p).

Definition set_coefficients (v : option (list Z)) (p : Participant)
  : Participant :=
  mkParticipant (index p) (threshold p) (participants p) v
    (coefficient_commitments p) (proof_of_knowledge p) (shares p)
    (aggregate_share p) (nonce_pair p) (nonce_commitment_pair p)
    (public_key p) (repair_shares p) (aggregate_repair_share p)
    (nonce_pair_r_ij p) (nonce_R_ij_commitments p) (nonce_R_ij p)
    (aggregate_nonce_R_i p) (challenge_hash_c p) (participant_a_i p)
    (agg_pk p) (partial_signature_s_ij p).

Definition set_coefficient_commitments (v : option (list Point))
  (p : Participant) : Participant :=
  mkParticipant (index p) (threshold p) (participants p) (coefficients p)
    v (proof_of_knowledge p) (shares p)
    (aggregate_share p) (nonce_pair p) (nonce_commitment_pair p)
    (public_key p) (repair_shares p) (aggregate_repair_share p)
    (nonce_pair_r_ij p) (nonce_R_ij_commitments p) (nonce_R_ij p)
    (aggregate_nonce_R_i p) (challenge_hash_c p) (participant_a_i p)
    (agg_pk p) (partial_signature_s_ij p).

Definition set_proof_of_knowledge (v : option (Point * Z))
  (p : Participant) : Participant :=
  mkParticipant (index p) (threshold p) (participants p) (coefficients p)
    (coefficient_commitments p) v (shares p)
    (aggregate_share p) (nonce_pair p) (nonce_commitment_pair p)
    (public_key p) (repair_shares p) (aggregate_repair_share p)
    (nonce_pair_r_ij p) (nonce_R_ij_commitments p) (nonce_R_ij p)
    (aggregate_nonce_R_i p) (challenge_hash_c p) (participant_a_i p)
    (agg_pk p) (partial_signature_s_ij p).

Definition set_shares (v : option (list Z)) (p : Participant)
  : Participant :=
  mkParticipant (index p) (threshold p) (participants p) (coefficients p)
    (coefficient_commitments p) (proof_of_knowledge p) v
    (aggregate_share p) (nonce_pair p) (nonce_commitment_pair p)
    (public_key p) (repair_shares p) (aggregate_repair_share p)
    (nonce_pair_r_ij p) (nonce_R_ij_commitments p) (nonce_R_ij p)
    (aggregate_nonce_R_i p) (challenge_hash_c p) (participant_a_i p)
    (agg_pk p) (partial_signature_s_ij p).

Definition set_aggregate_share (v : option Z) (p : Participant)
  : Participant :=
  mkParticipant (index p) (threshold p) (participants p) (coefficients p)
    (coefficient_commitments p) (proof_of_knowledge p) (shares p)
    v (nonce_pair p) (nonce_commitment_pair p)
    (public_key p) (repair_shares p) (aggregate_repair_share p)
    (nonce_pair_r_ij p) (nonce_R_ij_commitments p) (nonce_R_ij p)
    (aggregate_nonce_R_i p) (challenge_hash_c p) (participant_a_i p)
    (agg_pk p) (partial_signature_s_ij p).

Definition set_nonce_pair (v : option (Z * Z)) (p : Participant)
  : Participant :=
  mkParticipant (index p) (threshold p) (participants p) (coefficients p)
    (coefficient_commitments p) (proof_of_knowledge p) (shares p)
    (aggregate_share p) v (nonce_commitment_pair p)
    (public_key p) (repair_shares p) (aggregate_repair_share p)
    (nonce_pair_r_ij p) (nonce_R_ij_commitments p) (nonce_R_ij p)
    (aggregate_nonce_R_i p) (challenge_hash_c p) (participant_a_i p)
    (agg_pk p) (partial_signature_s_ij p).

Definition set_nonce_commitment_pair (v : option (Point * Point))
  (p : Participant) : Participant :=
  mkParticipant (index p) (threshold p) (participants p) (coefficients p)
    (coefficient_commitments p) (proof_of_knowledge p) (shares p)
    (aggregate_share p) (nonce_pair p) v
    (public_key p) (repair_shares p) (aggregate_repair_share p)
    (nonce_pair_r_ij p) (nonce_R_ij_commitments p) (nonce_R_ij p)
    (aggregate_nonce_R_i p) (challenge_hash_c p) (participant_a_i p)
    (agg_pk p) (partial_signature_s_ij p).

Definition set_public_key (v : option Point) (p : Participant)
  : Participant :=
  mkParticipant (index p) (threshold p) (participants p) (coefficients p)
    (coefficient_commitments p) (proof_of_knowledge p) (shares p)
    (aggregate_share p) (nonce_pair p) (nonce_commitment_pair p)
    v (repair_shares p) (aggregate_repair_share p)
    (nonce_pair_r_ij p) (nonce_R_ij_commitments p) (nonce_R_ij p)
    (aggregate_nonce_R_i p) (challenge_hash_c p) (participant_a_i p)
    (agg_pk p) (partial_signature_s_ij p).

Definition set_repair_shares (v : option (list Z)) (p : Participant)
  : Participant :=
  mkParticipant (index p) (threshold p) (participants p) (coefficients p)
    (coefficient_commitments p) (proof_of_knowledge p) (shares p)
    (aggregate_share p) (nonce_pair p) (nonce_commitment_pair p)
    (public_key p) v (aggregate_repair_share p)
    (nonce_pair_r_ij p) (nonce_R_ij_commitments p) (nonce_R_ij p)
    (aggregate_nonce_R_i p) (challenge_hash_c p) (participant_a_i p)
    (agg_pk p) (partial_signature_s_ij p).

(** ** State, exceptions and randomness

    A method runs on the object and on the operating system's source of
    random bits; it returns a value or raises, and either way leaves the
    object as its assignments made it. *)

Record Rng : Type := mkRng {
  draws : nat -> Z;
  cursor : nat
}.

Record World : Type := mkWorld {
  self : Participant;
  rng : Rng
}.

Definition M (A : Type) : Type := World -> Result A * World.

Definition ret {A : Type} (a : A) : M A := fun w => (Ok a, w).

Definition bind {A B : Type} (m : M A) (f : A -> M B) : M B :=
  fun w =>
    match m w with
    | (Ok a, w') => f a w'
    | (Err e, w') => (Err e, w')
    end.

Definition raise {A : Type} (e : exn) : M A := fun w => (Err e, w).

Definition lift {A : Type} (r : Result A) : M A := fun w => (r, w).

Definition gets {A : Type} (f : Participant -> A) : M A :=
  fun w => (Ok (f (self w)), w).

Definition modify (f : Participant -> Participant) : M unit :=
  fun w => (Ok tt, mkWorld (f (self w)) (rng w)).

(** [secrets.randbits(k)] *)
Definition randbits (k : Z) : M Z :=
  fun w =>
    let r := rng w in
    (Ok (draws r (cursor r) mod 2 ^ k),
     mkWorld (self w) (mkRng (draws r) (S (cursor r)))).

Notation "x <- m ;; k" := (bind m (fun x => k))
  (at level 100, m at next level, right associativity).
Notation "m ;; k" := (bind m (fun _ => k))
  (at level 100, right associativity).

(** [tuple(secrets.randbits(256) % Q for _ in range(n))] *)
Fixpoint random_scalars (n : nat) : M (list Z) :=
  match n with
  | O => ret []
  | S n' =>
      r <- randbits 256 ;;
      rs <- random_scalars n' ;;
      ret (r mod Q :: rs)
  end.

(** ** Methods

    A local variable that the source names like an attribute carries a
    trailing underscore here. *)

(** [Participant.__init__] *)
Definition __init__ (index threshold participants : pyval)
  : Result Participant :=
  match index, threshold, participants with
  | PyInt i, PyInt t, PyInt n =>
      Ok (mkParticipant i t n None None None None None None None None None
            None None [] [] None None None None None)
  | _, _, _ =>
      Err (ValueError
             "All arguments (index, threshold, participants) must be integers.")
  end.

(** [Participant._generate_polynomial] *)
Definition _generate_polynomial : M unit :=
  t <- gets threshold ;;
  cs <- random_scalars (Z.to_nat t) ;;
  modify (set_coefficients (Some cs)).

(** [Participant._generate_refresh_polynomial] *)
Definition _generate_refresh_polynomial : M unit :=
  t <- gets threshold ;;
  cs <- random_scalars (Z.to_nat (t - 1)) ;;
  modify (set_coefficients (Some (0 :: cs))).

(** [Participant._generate_threshold_increase_polynomial] *)
Definition _generate_threshold_increase_polynomial (new_threshold : Z)
  : M unit :=
  cs <- random_scalars (Z.to_nat (new_threshold - 1)) ;;
  modify (set_coefficients (Some cs)).

(** [c = H(i, context, g^a_0, R)] as both PoK methods compute it: the four
    byte strings fed to SHA-256 in this order, the digest read big-endian. *)
Definition pok_challenge (index_byte secret_commitment_bytes
                            nonce_commitment_bytes : bytes) : Z :=
  int_from_bytes
    (sha256 (index_byte ++ CONTEXT ++ secret_commitment_bytes
               ++ nonce_commitment_bytes)).

(** [Participant._compute_proof_of_knowledge] *)
Definition _compute_proof_of_knowledge : M unit :=
  cs <- gets coefficients ;;
  match cs with
  | None | Some [] =>
      raise (ValueError "Polynomial coefficients must be initialized.")
  | Some (secret :: _) =>
      r <- randbits 256 ;;
      let nonce := r mod Q in
      let nonce_commitment := pmul nonce G in
      i <- gets index ;;
      index_byte <- lift (to_bytes_1 i) ;;
      let secret_commitment := pmul secret G in
      secret_commitment_bytes <- lift (sec_serialize secret_commitment) ;;
      nonce_commitment_bytes <- lift (sec_serialize nonce_commitment) ;;
      let challenge_hash_int :=
        pok_challenge index_byte secret_commitment_bytes
          nonce_commitment_bytes in
      let s := (nonce + secret * challenge_hash_int) mod Q in
      modify (set_proof_of_knowledge (Some (nonce_commitment, s)))
  end.

(** [Participant._compute_coefficient_commitments] *)
Definition _compute_coefficient_commitments : M unit :=
  cs <- gets coefficients ;;
  match cs with
  | None | Some [] =>
      raise (ValueError "Polynomial coefficients must be initialized.")
  | Some coeffs =>
      modify (set_coefficient_commitments
                (Some (map (fun coefficient => pmul coefficient G) coeffs)))
  end.

(** [Participant.init_keygen] *)
Definition init_keygen : M unit :=
  _generate_polynomial ;;
  _compute_proof_of_knowledge ;;
  _compute_coefficient_commitments.

(** [Participant.init_refresh] *)
Definition init_refresh : M unit :=
  _generate_refresh_polynomial ;;
  _compute_coefficient_commitments.

(** [Participant.init_threshold_increase]; the argument is an integer by
    its type. *)
Definition init_threshold_increase (new_threshold : Z) : M unit :=
  t <- gets threshold ;;
  if new_threshold <=? t then
    raise (ValueError
             "New threshold must be greater than the current threshold.")
  else
    _generate_threshold_increase_polynomial new_threshold ;;
    _compute_proof_of_knowledge ;;
    _compute_coefficient_commitments ;;
    modify (set_threshold new_threshold).

(** [Participant.verify_proof_of_knowledge]; the proof is a pair of a point
    and an integer by its type. *)
Definition verify_proof_of_knowledge (proof : Point * Z)
  (secret_commitment : Point) (index : Z) : M bool :=
  let '(nonce_commitment, s) := proof in
  index_byte <- lift (to_bytes_1 index) ;;
  secret_commitment_bytes <- lift (sec_serialize secret_commitment) ;;
  nonce_commitment_bytes <- lift (sec_serialize nonce_commitment) ;;
  let challenge_hash_int :=
    pok_challenge index_byte secret_commitment_bytes
      nonce_commitment_bytes in
  let expected_nonce_commitment :=
    padd (pmul s G) (pmul (Q - challenge_hash_int) secret_commitment) in
  ret (peqb nonce_commitment expected_nonce_commitment).

(** [Participant._evaluate_polynomial]; [x] is an integer by its type. *)
Definition _evaluate_polynomial (x : Z) : M Z :=
  cs <- gets coefficients ;;
  match cs with
  | None | Some [] =>
      raise (ValueError "Polynomial coefficients must be initialized.")
  | Some coeffs =>
      ret (fold_left (fun y coefficient => (y * x + coefficient) mod Q)
             (rev coeffs) 0)
  end.

(** [tuple(self._evaluate_polynomial(x) for x in xs)] *)
Fixpoint evaluate_each (xs : list Z) : M (list Z) :=
  match xs with
  | [] => ret []
  | x :: xs' =>
      y <- _evaluate_polynomial x ;;
      ys <- evaluate_each xs' ;;
      ret (y :: ys)
  end.

(** [range(1, n + 1)] *)
Definition range_from_1 (n : Z) : list Z :=
  map (fun k => Z.of_nat k + 1) (seq 0 (Z.to_nat n)).

(** [Participant.generate_shares] *)
Definition generate_shares : M unit :=
  cs <- gets coefficients ;;
  match cs with
  | None | Some [] =>
      raise (ValueError
               "Polynomial coefficients must be initialized before generating shares.")
  | Some _ =>
      n <- gets participants ;;
      ys <- evaluate_each (range_from_1 n) ;;
      modify (set_shares (Some ys))
  end.

(** [Participant._lagrange_coefficient] *)
Definition _lagrange_coefficient (participant_indexes : list Z) (x : Z)
  : M Z :=
  if negb (len participant_indexes =? len (set participant_indexes)) then
    raise (ValueError "Participant indexes must be unique.")
  else
    i <- gets index ;;
    let '(numerator, denominator) :=
      fold_left
        (fun '(numerator, denominator) index =>
           if index =? i then (numerator, denominator)
           else (numerator * (x - index), denominator * (i - index)))
        participant_indexes (1, 1) in
    ret ((numerator * pow denominator (Q - 2) Q) mod Q).

(** [Participant.generate_repair_shares] *)
Definition generate_repair_shares (repair_participants : list Z)
  (index : Z) : M unit :=
  agg <- gets aggregate_share ;;
  match agg with
  | None => raise (ValueError "Aggregate share has not been initialized.")
  | Some s_i =>
      lagrange_coefficient <-
        _lagrange_coefficient repair_participants index ;;
      t <- gets threshold ;;
      random_shares <- random_scalars (Z.to_nat (t - 1)) ;;
      let final_share :=
        (lagrange_coefficient * s_i - sum random_shares) mod Q in
      modify (set_repair_shares (Some (random_shares ++ [final_share])))
  end.

(** [Participant.aggregate_shares]; the shares are integers by their type,
    and the message of the length check is kept without its numbers. *)
Definition aggregate_shares (other_shares : list Z) : M unit :=
  sh <- gets shares ;;
  match sh with
  | None | Some [] =>
      raise (ValueError "Participant's shares have not been initialized.")
  | Some own =>
      i <- gets index ;;
      if negb ((0 <=? i - 1) && (i - 1 <? len own)) then
        raise (ValueError "Participant index is out of range.")
      else
        n <- gets participants ;;
        if negb (len other_shares =? n - 1) then
          raise (ValueError "Expected exactly participants - 1 other shares.")
        else
          own_share <- lift (getitem own (i - 1)) ;;
          let aggregate_share_ :=
            fold_left (fun acc other_share => (acc + other_share) mod Q)
              other_shares own_share in
          agg <- gets aggregate_share ;;
          match agg with
          | Some s_i =>
              modify (set_aggregate_share
                        (Some ((s_i + aggregate_share_) mod Q)))
          | None => modify (set_aggregate_share (Some aggregate_share_))
          end
  end.

(** [Participant.repair_share] *)
Definition repair_share (aggregate_repair_shares : list Z) : M unit :=
  agg <- gets aggregate_share ;;
  match agg with
  | Some _ => raise (ValueError "Participant's share has not been lost")
  | None =>
      t <- gets threshold ;;
      if negb (len aggregate_repair_shares =? t) then
        raise (ValueError "Expected exactly threshold aggregate repair shares.")
      else
        modify (set_aggregate_share
                  (Some (sum aggregate_repair_shares mod Q)))
  end.

(** [Participant.decrement_threshold] *)
Definition decrement_threshold (revealed_share revealed_share_index : Z)
  : M unit :=
  agg <- gets aggregate_share ;;
  match agg with
  | None =>
      raise (ValueError "Participant's share has not been initialized.")
  | Some s_i =>
      t <- gets threshold ;;
      modify (set_threshold (t - 1)) ;;
      i <- gets index ;;
      let numerator := s_i - revealed_share in
      let denominator := i - revealed_share_index in
      let quotient := (numerator * pow denominator (Q - 2) Q) mod Q in
      modify (set_aggregate_share
                (Some ((revealed_share - revealed_share_index * quotient)
                         mod Q)))
  end.

(** [Participant.increase_threshold]: [not self.shares] holds of [None] and
    of the empty tuple, [not self.aggregate_share] of [None] and of [0]. *)
Definition increase_threshold (other_shares : list Z) : M unit :=
  sh <- gets shares ;;
  match sh with
  | None | Some [] =>
      raise (ValueError "Participant's shares have not been initialized.")
  | Some own =>
      agg <- gets aggregate_share ;;
      match agg with
      | None =>
          raise (ValueError
                   "Participant's aggregate share has not been initialized.")
      | Some s_i =>
          if s_i =? 0 then
            raise (ValueError
                     "Participant's aggregate share has not been initialized.")
          else
            i <- gets index ;;
            own_share <- lift (getitem own (i - 1)) ;;
            let aggregate_share_ := (own_share + sum other_shares) mod Q in
            modify (set_aggregate_share
                      (Some (s_i + (aggregate_share_ * i) mod Q)))
      end
  end.

(** [Participant.generate_nonce_pair] *)
Definition generate_nonce_pair : M unit :=
  r1 <- randbits 256 ;;
  r2 <- randbits 256 ;;
  let nonce_pair := (r1 mod Q, r2 mod Q) in
  let nonce_commitment_pair :=
    (pmul (fst nonce_pair) G, pmul (snd nonce_pair) G) in
  modify (set_nonce_pair (Some nonce_pair)) ;;
  modify (set_nonce_commitment_pair (Some nonce_commitment_pair)).

(** [P.x is None or P.y is None] *)
Definition at_infinity (P : Point) : bool :=
  match point_x P, point_y P with
  | Some _, Some _ => false
  | _, _ => true
  end.

(** [P.y % 2 != 0], with [P.y] set. *)
Definition odd_y (P : Point) : bool :=
  match point_y P with
  | Some y => negb (y mod 2 =? 0)
  | None => false
  end.

(** [Participant.sign] *)
Definition sign (message : bytes)
  (nonce_commitment_pairs : list (Point * Point))
  (participant_indexes : list Z) : M Z :=
  np <- gets nonce_pair ;;
  match np with
  | None => raise (ValueError "Nonce pair has not been initialized.")
  | Some (d_i, e_i) =>
  pk <- gets public_key ;;
  match pk with
  | None => raise (ValueError "Public key has not been initialized.")
  | Some Y =>
  if at_infinity Y then
    raise (ValueError "Public key is the point at infinity.")
  else
  agg <- gets aggregate_share ;;
  match agg with
  | None => raise (ValueError "Aggregate share has not been initialized.")
  | Some s_i =>
  let R :=
    group_commitment message nonce_commitment_pairs participant_indexes in
  if at_infinity R then
    raise (ValueError "Group commitment is the point at infinity.")
  else
  let c := challenge_hash R Y message in
  let '(first_nonce, second_nonce) :=
    if odd_y R then (Q - d_i, Q - e_i) else (d_i, e_i) in
  i <- gets index ;;
  let binding :=
    binding_value i message nonce_commitment_pairs participant_indexes in
  lagrange_coefficient <- _lagrange_coefficient participant_indexes 0 ;;
  let aggregate_share_ := if odd_y Y then Q - s_i else s_i in
  ret ((first_nonce + second_nonce * binding
        + lagrange_coefficient * aggregate_share_ * c) mod Q)
  end end end.

End Participant.

Notation "x <- m ;; k" := (bind m (fun x => k))
  (at level 100, m at next level, right associativity).
Notation "m ;; k" := (bind m (fun _ => k))
  (at level 100, right associativity).

(** ** Further methods *)

Section FurtherMethods.

Context {C : Collaborators}.

Definition set_aggregate_repair_share (v : option Z) (p : Participant)
  : Participant :=
  mkParticipant (index p) (threshold p) (participants p) (coefficients p)
    (coefficient_commitments p) (proof_of_knowledge p) (shares p)
    (aggregate_share p) (nonce_pair p) (nonce_commitment_pair p)
    (public_key p) (repair_shares p) v
    (nonce_pair_r_ij p) (nonce_R_ij_commitments p) (nonce_R_ij p)
    (aggregate_nonce_R_i p) (challenge_hash_c p) (participant_a_i p)
    (agg_pk p) (partial_signature_s_ij p).

(** [Participant.verify_share]: the loop over [enumerate] carries the
    position [k] beside the running sum. *)
Definition verify_share (y : Z) (coefficient_commitments : list Point)
  (threshold : Z) : M bool :=
  if negb (len coefficient_commitments =? threshold) then
    raise (ValueError
             "The number of coefficient commitments must match the threshold.")
  else
    i <- gets index ;;
    let '(_, expected_y_commitment) :=
      fold_left
        (fun '(k, expected) commitment =>
           (k + 1, padd expected (pmul (i ^ k mod Q) commitment)))
        coefficient_commitments (0, infinity) in
    ret (peqb (pmul y G) expected_y_commitment).

(** [Participant.aggregate_repair_shares]; the shares are integers by their
    type, and the message of the length check is kept without its
    numbers. *)
Definition aggregate_repair_shares (other_shares : list Z) : M unit :=
  rs <- gets repair_shares ;;
  match rs with
  | None | Some [] =>
      raise (ValueError
               "Participant's repair shares have not been initialized.")
  | Some (first :: _) =>
      t <- gets threshold ;;
      if negb (len other_shares =? t - 1) then
        raise (ValueError "Expected exactly threshold - 1 other shares.")
      else
        let aggregate_repair_share_ :=
          fold_left (fun acc other_share => (acc + other_share) mod Q)
            other_shares first in
        modify (set_aggregate_repair_share (Some aggregate_repair_share_))
  end.

(** [Participant.public_verification_share] *)
Definition public_verification_share : M Point :=
  agg <- gets aggregate_share ;;
  match agg with
  | None => raise (AttributeError "Aggregate share has not been initialized.")
  | Some s_i => ret (pmul s_i G)
  end.

(** [Participant.derive_public_key]; the commitments are points by their
    type. *)
Definition derive_public_key (other_secret_commitments : list Point)
  : M Point :=
  cms <- gets coefficient_commitments ;;
  match cms with
  | None | Some [] =>
      raise (ValueError
               "Coefficient commitments have not been initialized or are empty.")
  | Some (first :: _) =>
      let public_key_ := fold_left padd other_secret_commitments first in
      modify (set_public_key (Some public_key_)) ;;
      ret public_key_
  end.

End FurtherMethods.

(** Modelled from the spec: [Point()] is the identity of the group, the
    zero multiple of the generator. *)
Class IdentityLaw (C : Collaborators) : Prop := {
  pmul_0_G : pmul 0 G = infinity
}.

(** ** The specification's polynomial *)

(** The sum of [a_j * x^(k + j)] over the coefficients [a_0, a_1, ...]. *)
Fixpoint poly_from (k : Z) (cs : list Z) (x : Z) : Z :=
  match cs with
  | [] => 0
  | a :: cs' => a * x ^ k + poly_from (k + 1) cs' x
  end.

(** [f(x) = a_0 + a_1 x + ... + a_(t-1) x^(t-1)] over the integers. *)
Definition polynomial (cs : list Z) (x : Z) : Z := poly_from 0 cs x.

(** The sign a parity normalization of [sign] applies. *)
Definition parity_sign (odd : bool) : Z := if odd then -1 else 1.

(** ** The specification's Lagrange coefficient *)

(** [prod_of f L] is the product of [f j] over the entries [j] of [L]. *)
Definition prod_of (f : Z -> Z) (L : list Z) : Z :=
  fold_right (fun j acc => f j * acc) 1 L.

(** The product of [(x - p_j) * (p_i - p_j)^(-1)] over the indexes [L],
    modulo [Q], every inverse taken on its own as a power [Q - 2]. *)
Definition lagrange_product (p_i : Z) (L : list Z) (x : Z) : Z :=
  prod_of (fun p_j => (x - p_j) * pow (p_i - p_j) (Q - 2) Q) L mod Q.

(** The messages of the five precondition checks of [sign]. *)
Definition sign_precondition_messages : list string :=
  [ "Nonce pair has not been initialized.";
    "Public key has not been initialized.";
    "Public key is the point at infinity.";
    "Aggregate share has not been initialized.";
    "Group commitment is the point at infinity." ].

(** ** A model of the collaborators

    The integers modulo [Q] under addition, generated by [1], are a cyclic
    group of order [Q] as the curve is; the hash and the aggregator are
    stand-ins with the right types.  The concrete runs below use it. *)

Definition byte_of_Z (v : Z) : byte :=
  match Byte.of_N (Z.to_N v) with
  | Some b => b
  | None => x00
  end.

(** [v.to_bytes(n, "big")] for [0 <= v < 256^n]. *)
Fixpoint bytes_of_Z (n : nat) (v : Z) : bytes :=
  match n with
  | O => []
  | S n' => bytes_of_Z n' (v / 256) ++ [byte_of_Z (v mod 256)]
  end.

Definition Zq : Collaborators := {|
  Point := Z;
  infinity := 0;
  G := 1;
  padd := fun P R => (P + R) mod Q;
  pmul := fun k P => (k * P) mod Q;
  peqb := Z.eqb;
  point_x := fun P => if P =? 0 then None else Some P;
  point_y := fun P => if P =? 0 then None else Some P;
  sec_serialize := fun P =>
    if P =? 0 then Err (ValueError "Cannot serialize the point at infinity.")
    else Ok ((if P mod 2 =? 0 then x02 else x03) :: bytes_of_Z 32 P);
  sha256 := fun bs => bytes_of_Z 32 (int_from_bytes bs mod 2 ^ 256);
  group_commitment := fun _ pairs _ =>
    fold_left (fun acc '(D, E) => (acc + D + E) mod Q) pairs 0;
  challenge_hash := fun R Y message =>
    (int_from_bytes message + R + Y) mod 2 ^ 256;
  binding_value := fun i message _ _ => (int_from_bytes message + i) mod Q
|}.

(** A source of random bits that yields 1, 2, 3, ... *)
Definition counting : Rng := mkRng (fun k => Z.of_nat k + 1) 0.

(** The object [Participant(i, t, n)] as the constructor leaves it. *)
Definition fresh {C : Collaborators} (i t n : Z) : Participant :=
  mkParticipant i t n None None None None None None None None None
    None None [] [] None None None None None.

(** Participant 1 of a 2-of-3 group after key generation: shares and
    aggregate share set, ready for a threshold increase. *)
Definition keyed {C : Collaborators} (s_i : Z) : Participant :=
  set_aggregate_share (Some s_i) (set_shares (Some [1; 2; 3]) (fresh 1 2 3)).

(** Participant 2 of a 2-of-3 group ready to sign, over [Zq]. *)
Definition signer (Y : Z) : @Participant Zq :=
  @set_public_key Zq (Some Y)
    (set_nonce_pair (Some (11, 13))
       (set_aggregate_share (Some 5) (fresh 2 2 3))).

(** Participant 1 of a 2-of-3 group with its polynomial drawn. *)
Definition w_coefficients : @World Zq :=
  mkWorld (set_coefficients (Some [7; 9]) (fresh 1 2 3)) counting.

(** Participant 1 of a 2-of-3 group as constructed. *)
Definition w_fresh : @World Zq := mkWorld (fresh 1 2 3) counting.

(** Participant 1 of a 3-of-5 group holding the aggregate share 5. *)
Definition w_helper : @World Zq :=
  mkWorld (set_aggregate_share (Some 5) (fresh 1 3 5)) counting.

(** Participant 2 ready to sign under the public key 3, whose [y] is odd,
    on a commitment list whose group commitment is 3, odd as well. *)
Definition w_signer : @World Zq := mkWorld (signer 3) counting.
Definition hello : bytes := list_byte_of_string "hello".
Definition commitments : list (@Point Zq * @Point Zq) := [(1, 2)].

(** The partial signature participant 2 returns on these. *)
Definition signed : Z :=
  Eval vm_compute in
    match fst (sign hello commitments [1; 2] w_signer) with
    | Ok z => z
    | Err _ => 0
    end.

(** ** Reading a run *)

(** The indexes the loop multiplies in: all but the caller's own. *)
Definition others (i : Z) (L : list Z) : list Z :=
  filter (fun j => negb (j =? i)) L.

Section Reading.

Context {C : Collaborators}.

(** What [sign] returns from a given Lagrange coefficient. *)
Definition partial_signature (w : World) (message : bytes)
  (B : list (Point * Point)) (S : list Z) (d_i e_i s_i : Z) (Y : Point)
  (lambda_i : Z) : Z :=
  let R := group_commitment message B S in
  ((if odd_y R then Q - d_i else d_i)
   + (if odd_y R then Q - e_i else e_i)
     * binding_value (index (self w)) message B S
   + lambda_i * (if odd_y Y then Q - s_i else s_i)
     * challenge_hash R Y message) mod Q.

(** The checks of [sign], in its order: the message it raises with, if
    any. *)
Definition sign_check (w : World) (message : bytes)
  (B : list (Point * Point)) (S : list Z) : option string :=
  match nonce_pair (self w), public_key (self w), aggregate_share (self w)
  with
  | None, _, _ => Some "Nonce pair has not been initialized."
  | Some _, None, _ => Some "Public key has not been initialized."
  | Some _, Some Y, agg =>
      if at_infinity Y then Some "Public key is the point at infinity."
      else match agg with
           | None => Some "Aggregate share has not been initialized."
           | Some _ =>
               if at_infinity (group_commitment message B S)
               then Some "Group commitment is the point at infinity."
               else None
           end
  end.

(** The nonce [_compute_proof_of_knowledge] draws in the world [w]. *)
Definition pok_nonce (w : World) : Z :=
  (draws (rng w) (cursor (rng w)) mod 2 ^ 256) mod Q.

(** Both tuples are set and have [n] entries. *)
Definition both_of_length (p : Participant) (n : Z) : Prop :=
  exists cs cms,
    coefficients p = Some cs
    /\ coefficient_commitments p = Some cms
    /\ len cs = n
    /\ len cms = n.

End Reading.

(** The sum of [(i^(k + j) mod Q) * a_j] over the coefficients, the scalar
    [verify_share] accumulates on commitments [a_j * G]. *)
Fixpoint weighted_from (k : Z) (cs : list Z) (i : Z) : Z :=
  match cs with
  | [] => 0
  | a :: cs' => (i ^ k mod Q) * a + weighted_from (k + 1) cs' i
  end.

Section FurtherReading.

Context {C : Collaborators}.

(** The coefficients are field elements and the commitments are their
    multiples of the generator, position by position. *)
Definition committed (p : Participant) : Prop :=
  exists a cs,
    coefficients p = Some (a :: cs)
    /\ Forall (fun c => 0 <= c < Q) (a :: cs)
    /\ coefficient_commitments p
       = Some (map (fun c => pmul c G) (a :: cs)).

(** The stored proof of knowledge is the Schnorr pair of the first
    coefficient under the nonce [k]. *)
Definition proved (p : Participant) (k : Z) : Prop :=
  exists a cs ib sb nb,
    coefficients p = Some (a :: cs)
    /\ to_bytes_1 (index p) = Ok ib
    /\ sec_serialize (pmul a G) = Ok sb
    /\ sec_serialize (pmul k G) = Ok nb
    /\ proof_of_knowledge p
       = Some (pmul k G, (k + a * pok_challenge ib sb nb) mod Q).

End FurtherReading.

(** ** Further worlds over the integers modulo [Q] *)

(** Participant 1 constructed with the threshold 0. *)
Definition w_no_threshold : @World Zq := mkWorld (fresh 1 0 3) counting.

(** A participant whose index, 300, does not fit a byte. *)
Definition w_wide_index : @World Zq :=
  mkWorld (set_coefficients (Some [7; 9]) (fresh 300 2 3)) counting.

(** Participant 1 of a 2-of-3 group holding the shares of [1 + 2 x]. *)
Definition w_shares : @World Zq :=
  mkWorld (set_shares (Some [3; 5; 7]) (fresh 1 2 3)) counting.

(** Participant 1 holding its shares and the aggregate share 5. *)
Definition w_keyed : @World Zq := mkWorld (keyed 5) counting.

(** Participant 7, outside a group of three, with shares and an aggregate
    share. *)
Definition w_outside : @World Zq :=
  mkWorld (set_aggregate_share (Some 5)
             (set_shares (Some [1; 2; 3]) (fresh 7 2 3))) counting.

(** Participant 1 of a 1-of-3 group holding the aggregate share 5, and the
    same participant after [decrement_threshold(7, 3)]: its threshold is
    then 0. *)
Definition w_single : @World Zq :=
  mkWorld (set_aggregate_share (Some 5) (fresh 1 1 3)) counting.
Definition w_decremented : @World Zq :=
  snd (decrement_threshold 7 3 w_single).

(** A helper holding the repair shares [(4, 6)]. *)
Definition w_repairing : @World Zq :=
  mkWorld (set_repair_shares (Some [4; 6]) (fresh 1 2 3)) counting.

(** A 2-of-3 group sharing [f(x) = 1 + 2 x]: participants 1 and 2 hold
    [f(1) = 3] and [f(2) = 5], participant 3 has lost [f(3) = 7]. *)
Definition helper_A : @World Zq :=
  mkWorld (set_aggregate_share (Some 3) (fresh 1 2 3)) counting.
Definition helper_B : @World Zq :=
  mkWorld (set_aggregate_share (Some 5) (fresh 2 2 3)) counting.
Definition lost : @World Zq := mkWorld (fresh 3 2 3) counting.

(** * Properties *)

(** ** Arithmetic modulo [Q] *)

Lemma Q_pos : 0 < Q.
Proof. reflexivity. Qed.

Lemma Q_neq_0 : Q <> 0.
Proof. pose proof Q_pos; lia. Qed.

Lemma pow_spec (b e : Z) : pow b e Q = b ^ e mod Q.
Proof. unfold pow. apply Zpow_mod_correct, Q_neq_0. Qed.

Lemma sum_from (xs : list Z) (a : Z) : fold_left Z.add xs a = a + sum xs.
Proof.
  unfold sum. revert a.
  induction xs as [|x xs IH]; intros a; cbn [fold_left].
  - lia.
  - rewrite (IH (a + x)), (IH (0 + x)). lia.
Qed.

Lemma sum_app (xs ys : list Z) : sum (xs ++ ys) = sum xs + sum ys.
Proof.
  unfold sum at 1. rewrite fold_left_app. fold (sum xs). apply sum_from.
Qed.

Lemma sum_singleton (x : Z) : sum [x] = x.
Proof. reflexivity. Qed.

Lemma mod_add_cancel_r (a b t : Z) :
  (a + t) mod Q = (b + t) mod Q -> a mod Q = b mod Q.
Proof.
  intros H.
  replace a with ((a + t) + - t) by lia.
  replace b with ((b + t) + - t) by lia.
  rewrite <- (Z.add_mod_idemp_l (a + t)), <- (Z.add_mod_idemp_l (b + t))
    by apply Q_neq_0.
  now rewrite H.
Qed.

(** ** Tuples without repetition *)

Lemma nodup_length_le (xs : list Z) :
  (List.length (nodup Z.eq_dec xs) <= List.length xs)%nat.
Proof.
  induction xs as [|x xs IH]; cbn [nodup List.length]; [lia|].
  destruct (in_dec Z.eq_dec x xs); cbn [List.length]; lia.
Qed.

Lemma len_set_iff (xs : list Z) : len xs = len (set xs) <-> NoDup xs.
Proof.
  unfold len, set. split.
  - intros H. apply Nat2Z.inj in H.
    induction xs as [|x xs IH]; [constructor|].
    cbn [nodup List.length] in H.
    pose proof (nodup_length_le xs).
    destruct (in_dec Z.eq_dec x xs) as [Hin|Hin]; cbn [List.length] in H; [lia|].
    constructor; [assumption|]. apply IH. lia.
  - intros H. now rewrite nodup_fixed_point.
Qed.

Lemma unique_check (xs : list Z) :
  negb (len xs =? len (set xs)) = false <-> NoDup xs.
Proof.
  rewrite negb_false_iff, Z.eqb_eq. apply len_set_iff.
Qed.

(** ** The loop of [_lagrange_coefficient] *)

Lemma lagrange_loop (i x : Z) (f : Z * Z -> Z -> Z * Z) :
  (forall n d j,
      f (n, d) j = if j =? i then (n, d) else (n * (x - j), d * (i - j))) ->
  forall L n d,
    fold_left f L (n, d)
    = (n * prod_of (fun j => x - j) (others i L),
       d * prod_of (fun j => i - j) (others i L)).
Proof.
  intros Hf L. induction L as [|j L IH]; intros n d.
  - cbn [fold_left others filter prod_of fold_right].
    now rewrite !Z.mul_1_r.
  - cbn [fold_left others filter]. rewrite Hf.
    destruct (j =? i); cbn [negb]; rewrite IH; fold (others i L).
    + reflexivity.
    + cbn [prod_of fold_right]. now rewrite !Z.mul_assoc.
Qed.

Lemma one_inverse_for_all (i x : Z) (L : list Z) :
  (prod_of (fun j => x - j) L
   * pow (prod_of (fun j => i - j) L) (Q - 2) Q) mod Q
  = lagrange_product i L x.
Proof.
  unfold lagrange_product. rewrite pow_spec.
  rewrite Z.mul_mod_idemp_r by apply Q_neq_0.
  induction L as [|j L IH]; cbn [prod_of fold_right].
  - now rewrite Z.pow_1_l by (pose proof Q_pos; unfold Q in *; lia).
  - fold (prod_of (fun j => x - j) L) (prod_of (fun j => i - j) L)
      (prod_of (fun p_j => (x - p_j) * pow (i - p_j) (Q - 2) Q) L) in *.
    rewrite Z.pow_mul_l, pow_spec.
    replace ((x - j) * prod_of (fun j => x - j) L
             * ((i - j) ^ (Q - 2) * prod_of (fun j => i - j) L ^ (Q - 2)))
      with (((x - j) * (i - j) ^ (Q - 2))
            * (prod_of (fun j => x - j) L
               * prod_of (fun j => i - j) L ^ (Q - 2))) by ring.
    rewrite Z.mul_mod by apply Q_neq_0. rewrite IH.
    rewrite <- Z.mul_mod by apply Q_neq_0.
    rewrite <- (Z.mul_mod_idemp_l ((x - j) * ((i - j) ^ (Q - 2) mod Q)))
      by apply Q_neq_0.
    rewrite Z.mul_mod_idemp_r by apply Q_neq_0.
    rewrite Z.mul_mod_idemp_l by apply Q_neq_0.
    reflexivity.
Qed.

Lemma others_absent (i : Z) (L : list Z) : ~ In i L -> others i L = L.
Proof.
  induction L as [|j L IH]; intros H; cbn [others filter]; [reflexivity|].
  destruct (Z.eqb_spec j i) as [->|Hne]; cbn [negb].
  - exfalso. apply H. now left.
  - fold (others i L). rewrite IH; [reflexivity|].
    intros Hin. apply H. now right.
Qed.

Lemma others_present (i : Z) (L : list Z) :
  NoDup L -> In i L ->
  exists l1 l2, L = l1 ++ i :: l2 /\ others i L = l1 ++ l2.
Proof.
  intros Hnd Hin. apply in_split in Hin as (l1 & l2 & ->).
  exists l1, l2. split; [reflexivity|].
  apply NoDup_remove_2 in Hnd.
  unfold others. rewrite filter_app. cbn [filter].
  rewrite Z.eqb_refl. cbn [negb].
  fold (others i l1) (others i l2).
  rewrite !others_absent; [reflexivity| |];
    intros H; apply Hnd, in_or_app; auto.
Qed.

(** ** Running the methods *)

Section Runs.

Context {C : Collaborators}.

Ltac run := cbv [bind ret raise lift gets modify] in *.

Lemma random_scalars_run (n : nat) (w : World) :
  exists rs,
    random_scalars n w
    = (Ok rs,
       mkWorld (self w)
         (mkRng (draws (rng w)) (cursor (rng w) + n)%nat))
    /\ List.length rs = n
    /\ Forall (fun r => 0 <= r < Q) rs.
Proof.
  revert w. induction n as [|n IH]; intros w; cbn [random_scalars].
  - exists []. run. destruct w as [p [ds c]]; cbn.
    rewrite Nat.add_0_r. auto.
  - run. unfold randbits. cbn [self rng draws cursor].
    destruct (IH (mkWorld (self w)
                    (mkRng (draws (rng w)) (S (cursor (rng w))))))
      as (rs & Hrun & Hlen & Hall).
    rewrite Hrun. cbn [self rng draws cursor].
    eexists. split; [|split].
    + rewrite Nat.add_succ_r. reflexivity.
    + cbn [List.length]. now rewrite Hlen.
    + constructor; [|assumption]. apply Z.mod_pos_bound, Q_pos.
Qed.

Lemma lagrange_coefficient_unique (w : World) (S : list Z) (x : Z) :
  NoDup S ->
  _lagrange_coefficient S x w
  = (Ok (lagrange_product (index (self w)) (others (index (self w)) S) x),
     w).
Proof.
  intros Hnd. unfold _lagrange_coefficient.
  apply unique_check in Hnd. rewrite Hnd. run.
  rewrite (lagrange_loop (index (self w)) x) by reflexivity.
  rewrite !Z.mul_1_l. now rewrite one_inverse_for_all.
Qed.

Lemma lagrange_coefficient_repeated (w : World) (S : list Z) (x : Z) :
  ~ NoDup S ->
  _lagrange_coefficient S x w
  = (Err (ValueError "Participant indexes must be unique."), w).
Proof.
  intros Hdup. unfold _lagrange_coefficient.
  destruct (negb (len S =? len (set S))) eqn:E; [reflexivity|].
  now apply unique_check in E.
Qed.

(** C7: [_lagrange_coefficient] raises [ValueError] on a tuple with a
    repeated index; on a tuple without repetition that holds the caller's
    index it returns the product over the cohort of
    [(x - p_j) * (p_i - p_j)^(Q - 2)] modulo [Q] with exactly one entry left
    out, the caller's own. *)
Theorem lagrange_coefficient_spec (w : World) (S : list Z) (x : Z) :
  (~ NoDup S ->
   _lagrange_coefficient S x w
   = (Err (ValueError "Participant indexes must be unique."), w))
  /\ (NoDup S -> In (index (self w)) S ->
      exists l1 l2,
        S = l1 ++ index (self w) :: l2
        /\ _lagrange_coefficient S x w
           = (Ok (lagrange_product (index (self w)) (l1 ++ l2) x), w)).
Proof.
  split.
  - apply lagrange_coefficient_repeated.
  - intros Hnd Hin.
    destruct (others_present _ _ Hnd Hin) as (l1 & l2 & HS & Ho).
    exists l1, l2. split; [assumption|].
    rewrite lagrange_coefficient_unique by assumption.
    now rewrite Ho.
Qed.

(** Past its five checks, [sign] is the Lagrange coefficient followed by
    the arithmetic of the partial signature. *)
Lemma sign_checked (w : World) (message : bytes)
  (B : list (Point * Point)) (S : list Z) (d_i e_i s_i : Z) (Y : Point) :
  nonce_pair (self w) = Some (d_i, e_i) ->
  public_key (self w) = Some Y ->
  at_infinity Y = false ->
  aggregate_share (self w) = Some s_i ->
  at_infinity (group_commitment message B S) = false ->
  sign message B S w
  = (lambda_i <- _lagrange_coefficient S 0 ;;
     ret (partial_signature w message B S d_i e_i s_i Y lambda_i)) w.
Proof.
  intros Hn Hk HY Ha HR. unfold sign, partial_signature. run.
  rewrite Hn, Hk, HY, Ha, HR.
  destruct (odd_y (group_commitment message B S)); cbv beta iota zeta;
    destruct (_lagrange_coefficient S 0 w) as [[e|lam] w1]; reflexivity.
Qed.

Lemma sign_checked_unique (w : World) (message : bytes)
  (B : list (Point * Point)) (S : list Z) (d_i e_i s_i : Z) (Y : Point) :
  nonce_pair (self w) = Some (d_i, e_i) ->
  public_key (self w) = Some Y ->
  at_infinity Y = false ->
  aggregate_share (self w) = Some s_i ->
  at_infinity (group_commitment message B S) = false ->
  NoDup S ->
  sign message B S w
  = (Ok (partial_signature w message B S d_i e_i s_i Y
           (lagrange_product (index (self w))
              (others (index (self w)) S) 0)), w).
Proof.
  intros Hn Hk HY Ha HR Hnd.
  rewrite (sign_checked w message B S d_i e_i s_i Y) by assumption.
  unfold bind. now rewrite lagrange_coefficient_unique by assumption.
Qed.

Lemma sign_checked_repeated (w : World) (message : bytes)
  (B : list (Point * Point)) (S : list Z) (d_i e_i s_i : Z) (Y : Point) :
  nonce_pair (self w) = Some (d_i, e_i) ->
  public_key (self w) = Some Y ->
  at_infinity Y = false ->
  aggregate_share (self w) = Some s_i ->
  at_infinity (group_commitment message B S) = false ->
  ~ NoDup S ->
  sign message B S w
  = (Err (ValueError "Participant indexes must be unique."), w).
Proof.
  intros Hn Hk HY Ha HR Hnd.
  rewrite (sign_checked w message B S d_i e_i s_i Y) by assumption.
  unfold bind. now rewrite lagrange_coefficient_repeated by assumption.
Qed.

Lemma NoDup_dec (S : list Z) : {NoDup S} + {~ NoDup S}.
Proof.
  destruct (negb (len S =? len (set S))) eqn:E.
  - right. intros H. apply unique_check in H. congruence.
  - left. now apply unique_check.
Qed.

Lemma sign_check_fails (w : World) (message : bytes)
  (B : list (Point * Point)) (S : list Z) (msg : string) :
  sign_check w message B S = Some msg ->
  In msg sign_precondition_messages
  /\ sign message B S w = (Err (ValueError msg), w).
Proof.
  unfold sign_check, sign, sign_precondition_messages. run.
  destruct (nonce_pair (self w)) as [[d e]|];
    [|intros [= <-]; cbn; auto].
  destruct (public_key (self w)) as [Y|];
    [|intros [= <-]; cbn; auto].
  destruct (at_infinity Y);
    [intros [= <-]; cbn; auto 6|].
  destruct (aggregate_share (self w)) as [s|];
    [|intros [= <-]; cbn; auto 7].
  destruct (at_infinity (group_commitment message B S));
    [intros [= <-]; cbn; auto 8|discriminate].
Qed.

Lemma sign_check_passes (w : World) (message : bytes)
  (B : list (Point * Point)) (S : list Z) :
  sign_check w message B S = None ->
  exists d_i e_i s_i Y,
    nonce_pair (self w) = Some (d_i, e_i)
    /\ public_key (self w) = Some Y
    /\ at_infinity Y = false
    /\ aggregate_share (self w) = Some s_i
    /\ at_infinity (group_commitment message B S) = false.
Proof.
  unfold sign_check.
  destruct (nonce_pair (self w)) as [[d e]|]; [|discriminate].
  destruct (public_key (self w)) as [Y|]; [|discriminate].
  destruct (at_infinity Y) eqn:HY; [discriminate|].
  destruct (aggregate_share (self w)) as [s|]; [|discriminate].
  destruct (at_infinity (group_commitment message B S)) eqn:HR;
    [discriminate|].
  intros _. exists d, e, s, Y. auto.
Qed.

Lemma sign_check_iff (w : World) (message : bytes)
  (B : list (Point * Point)) (S : list Z) :
  (nonce_pair (self w) = None
   \/ public_key (self w) = None
   \/ aggregate_share (self w) = None
   \/ (exists Y, public_key (self w) = Some Y /\ at_infinity Y = true)
   \/ at_infinity (group_commitment message B S) = true)
  <-> sign_check w message B S <> None.
Proof.
  split.
  - intros H Hpass.
    apply sign_check_passes in Hpass
      as (d & e & s & Y & Hn & Hk & HY & Ha & HR).
    destruct H as [H|[H|[H|[(Y' & H & H')|H]]]]; congruence.
  - unfold sign_check.
    destruct (nonce_pair (self w)) as [[d e]|]; [|auto].
    destruct (public_key (self w)) as [Y|]; [|auto].
    destruct (at_infinity Y) eqn:HY; [eauto 8|].
    destruct (aggregate_share (self w)) as [s|]; [|auto].
    destruct (at_infinity (group_commitment message B S)) eqn:HR;
      [auto 8|congruence].
Qed.

(** C2: [sign] raises a [ValueError] of its precondition checks exactly
    when the nonce pair, the public key or the aggregate share is unset, or
    the public key or the group commitment is the point at infinity; in
    every other case it goes on to compute the partial signature, where
    the one error left is the repeated index of the Lagrange coefficient. *)
Theorem sign_precondition_errors (w : World) (message : bytes)
  (B : list (Point * Point)) (S : list Z) :
  ((nonce_pair (self w) = None
    \/ public_key (self w) = None
    \/ aggregate_share (self w) = None
    \/ (exists Y, public_key (self w) = Some Y /\ at_infinity Y = true)
    \/ at_infinity (group_commitment message B S) = true)
   <-> exists msg,
         In msg sign_precondition_messages
         /\ sign message B S w = (Err (ValueError msg), w))
  /\ (~ (nonce_pair (self w) = None
         \/ public_key (self w) = None
         \/ aggregate_share (self w) = None
         \/ (exists Y, public_key (self w) = Some Y
                       /\ at_infinity Y = true)
         \/ at_infinity (group_commitment message B S) = true) ->
      (NoDup S -> exists z, sign message B S w = (Ok z, w))
      /\ (~ NoDup S ->
          sign message B S w
          = (Err (ValueError "Participant indexes must be unique."), w))).
Proof.
  rewrite sign_check_iff. split; [split|].
  - destruct (sign_check w message B S) as [msg|] eqn:E; [|congruence].
    intros _. exists msg. now apply sign_check_fails.
  - intros (msg & Hin & Hrun) Hpass.
    apply sign_check_passes in Hpass
      as (d & e & s & Y & Hn & Hk & HY & Ha & HR).
    destruct (NoDup_dec S) as [Hnd|Hnd].
    + rewrite (sign_checked_unique w message B S d e s Y) in Hrun
        by assumption.
      discriminate.
    + rewrite (sign_checked_repeated w message B S d e s Y) in Hrun
        by assumption.
      injection Hrun as <-.
      cbn in Hin. repeat (destruct Hin as [Hin|Hin]; [discriminate|]).
      assumption.
  - intros Hpass.
    destruct (sign_check w message B S) eqn:E;
      [exfalso; apply Hpass; discriminate|].
    apply sign_check_passes in E
      as (d & e & s & Y & Hn & Hk & HY & Ha & HR).
    split; intros Hnd.
    + eexists. now apply (sign_checked_unique w message B S d e s Y).
    + now apply (sign_checked_repeated w message B S d e s Y).
Qed.

(** [sign] leaves the object and the random source as they were, whatever
    it returns or raises. *)
Lemma sign_frame (w w' : World) (message : bytes)
  (B : list (Point * Point)) (S : list Z) (r : Result Z) :
  sign message B S w = (r, w') -> w' = w.
Proof.
  destruct (sign_check w message B S) as [msg|] eqn:E.
  - apply sign_check_fails in E as [_ ->]. now intros [= _ <-].
  - apply sign_check_passes in E
      as (d & e & s & Y & Hn & Hk & HY & Ha & HR).
    destruct (NoDup_dec S) as [Hnd|Hnd].
    + rewrite (sign_checked_unique w message B S d e s Y) by assumption.
      now intros [= _ <-].
    + rewrite (sign_checked_repeated w message B S d e s Y) by assumption.
      now intros [= _ <-].
Qed.

(** C8: a call of [sign] that returns a value leaves every attribute of the
    participant as it was, the aggregate share and the nonce pair among
    them, also when the value was computed from [Q - s_i] or from
    [(Q - d_i, Q - e_i)]. *)
Theorem sign_changes_nothing (w w' : World) (message : bytes)
  (B : list (Point * Point)) (S : list Z) (z : Z) :
  sign message B S w = (Ok z, w') ->
  self w' = self w
  /\ aggregate_share (self w') = aggregate_share (self w)
  /\ nonce_pair (self w') = nonce_pair (self w).
Proof.
  intros H. apply sign_frame in H. subst w'. auto.
Qed.

(** C10: on a tuple without repetition that does not hold the caller's
    index, [_lagrange_coefficient] raises nothing and returns the product
    over every entry of the tuple, none left out; [sign], which never tests
    that the caller belongs to the cohort, returns the partial signature
    computed from that value. *)
Theorem lagrange_coefficient_outsider (w : World) (S : list Z) (x : Z) :
  NoDup S -> ~ In (index (self w)) S ->
  _lagrange_coefficient S x w
  = (Ok (lagrange_product (index (self w)) S x), w)
  /\ forall message B d_i e_i s_i Y,
       nonce_pair (self w) = Some (d_i, e_i) ->
       public_key (self w) = Some Y ->
       at_infinity Y = false ->
       aggregate_share (self w) = Some s_i ->
       at_infinity (group_commitment message B S) = false ->
       sign message B S w
       = (Ok (partial_signature w message B S d_i e_i s_i Y
                (lagrange_product (index (self w)) S 0)), w).
Proof.
  intros Hnd Hout. split.
  - rewrite lagrange_coefficient_unique by assumption.
    now rewrite others_absent.
  - intros message B d e s Y Hn Hk HY Ha HR.
    rewrite (sign_checked_unique w message B S d e s Y) by assumption.
    now rewrite others_absent.
Qed.

(** *** Repair shares *)

Lemma generate_repair_shares_returns (w : World) (cohort : list Z)
  (l s_i : Z) :
  aggregate_share (self w) = Some s_i ->
  NoDup cohort ->
  exists w', generate_repair_shares cohort l w = (Ok tt, w').
Proof.
  intros Ha Hnd. unfold generate_repair_shares. run. rewrite Ha.
  rewrite lagrange_coefficient_unique by assumption.
  destruct (random_scalars_run (Z.to_nat (threshold (self w) - 1)) w)
    as (rs & -> & _). eauto.
Qed.

(** C6, as the code has it: with the aggregate share set and a threshold
    of at least one,
    [generate_repair_shares] stores a tuple of exactly [threshold] entries,
    the [threshold - 1] sampled scalars followed by the final share, whose
    sum is congruent modulo [Q] to the Lagrange coefficient of the cohort at
    the lost index times the aggregate share. *)
Theorem repair_shares_sum (w w' : World) (cohort : list Z) (l s_i : Z) :
  aggregate_share (self w) = Some s_i ->
  1 <= threshold (self w) ->
  generate_repair_shares cohort l w = (Ok tt, w') ->
  exists lambda_i random_shares final_share,
    _lagrange_coefficient cohort l w = (Ok lambda_i, w)
    /\ fst (random_scalars (Z.to_nat (threshold (self w) - 1)) w)
       = Ok random_shares
    /\ final_share = (lambda_i * s_i - sum random_shares) mod Q
    /\ repair_shares (self w') = Some (random_shares ++ [final_share])
    /\ len random_shares = threshold (self w') - 1
    /\ len (random_shares ++ [final_share]) = threshold (self w')
    /\ sum (random_shares ++ [final_share]) mod Q = (lambda_i * s_i) mod Q.
Proof.
  intros Ha Ht. unfold generate_repair_shares. run. rewrite Ha.
  destruct (NoDup_dec cohort) as [Hnd|Hnd];
    [|rewrite lagrange_coefficient_repeated by assumption; discriminate].
  rewrite lagrange_coefficient_unique by assumption.
  destruct (random_scalars_run (Z.to_nat (threshold (self w) - 1)) w)
    as (rs & Hrs & Hlen & _).
  rewrite Hrs. intros [= <-]. cbn [self set_repair_shares repair_shares
                                   threshold fst].
  do 3 eexists. repeat split.
  - unfold len. rewrite Hlen. lia.
  - unfold len. rewrite length_app, Hlen. cbn [List.length]. lia.
  - rewrite sum_app, sum_singleton.
    rewrite Z.add_mod_idemp_r by apply Q_neq_0.
    f_equal. lia.
Qed.

(** On a threshold below one, [generate_repair_shares] samples nothing and
    stores the final share alone. *)
Lemma repair_shares_without_threshold (w w' : World) (cohort : list Z)
  (l s_i : Z) :
  aggregate_share (self w) = Some s_i ->
  threshold (self w) <= 0 ->
  generate_repair_shares cohort l w = (Ok tt, w') ->
  exists final_share, repair_shares (self w') = Some [final_share].
Proof.
  intros Ha Ht. unfold generate_repair_shares. run. rewrite Ha.
  destruct (NoDup_dec cohort) as [Hnd|Hnd];
    [|rewrite lagrange_coefficient_repeated by assumption; discriminate].
  rewrite lagrange_coefficient_unique by assumption.
  replace (Z.to_nat (threshold (self w) - 1)) with 0%nat by lia.
  cbn [random_scalars]. run. intros [= <-].
  cbn [self set_repair_shares repair_shares app]. eauto.
Qed.

(** *** Key generation, refresh and threshold increase *)

Lemma generate_polynomial_run (w : World) :
  exists cs r,
    _generate_polynomial w
    = (Ok tt, mkWorld (set_coefficients (Some cs) (self w)) r)
    /\ List.length cs = Z.to_nat (threshold (self w)).
Proof.
  unfold _generate_polynomial. run.
  destruct (random_scalars_run (Z.to_nat (threshold (self w))) w)
    as (rs & -> & Hlen & _).
  cbn [self rng]. eauto.
Qed.

Lemma generate_refresh_polynomial_run (w : World) :
  exists cs r,
    _generate_refresh_polynomial w
    = (Ok tt, mkWorld (set_coefficients (Some (0 :: cs)) (self w)) r)
    /\ List.length cs = Z.to_nat (threshold (self w) - 1).
Proof.
  unfold _generate_refresh_polynomial. run.
  destruct (random_scalars_run (Z.to_nat (threshold (self w) - 1)) w)
    as (rs & -> & Hlen & _).
  cbn [self rng]. eauto.
Qed.

Lemma generate_threshold_increase_polynomial_run (w : World) (new_t : Z) :
  exists cs r,
    _generate_threshold_increase_polynomial new_t w
    = (Ok tt, mkWorld (set_coefficients (Some cs) (self w)) r)
    /\ List.length cs = Z.to_nat (new_t - 1).
Proof.
  unfold _generate_threshold_increase_polynomial. run.
  destruct (random_scalars_run (Z.to_nat (new_t - 1)) w)
    as (rs & -> & Hlen & _).
  cbn [self rng]. eauto.
Qed.

Lemma compute_proof_of_knowledge_run (w w' : World) :
  _compute_proof_of_knowledge w = (Ok tt, w') ->
  exists a_0 rest ib sb nb,
    coefficients (self w) = Some (a_0 :: rest)
    /\ to_bytes_1 (index (self w)) = Ok ib
    /\ sec_serialize (pmul a_0 G) = Ok sb
    /\ sec_serialize (pmul (pok_nonce w) G) = Ok nb
    /\ w' = mkWorld
              (set_proof_of_knowledge
                 (Some (pmul (pok_nonce w) G,
                        (pok_nonce w + a_0 * pok_challenge ib sb nb) mod Q))
                 (self w))
              (mkRng (draws (rng w)) (S (cursor (rng w)))).
Proof.
  unfold _compute_proof_of_knowledge, pok_nonce. intros H. run.
  unfold randbits in H.
  destruct (coefficients (self w)) as [[|a_0 rest]|]; try discriminate.
  cbn [self rng] in H.
  destruct (to_bytes_1 (index (self w))) as [e|ib] eqn:Hib; [discriminate|].
  destruct (sec_serialize (pmul a_0 G)) as [e|sb] eqn:Hsb; [discriminate|].
  destruct (sec_serialize (pmul (_ mod Q) G)) as [e|nb] eqn:Hnb;
    [discriminate|].
  injection H as <-. exists a_0, rest, ib, sb, nb. auto.
Qed.

Lemma compute_proof_of_knowledge_returns (w : World) (a_0 : Z)
  (rest : list Z) (sb nb : bytes) :
  coefficients (self w) = Some (a_0 :: rest) ->
  0 <= index (self w) < 256 ->
  sec_serialize (pmul a_0 G) = Ok sb ->
  sec_serialize (pmul (pok_nonce w) G) = Ok nb ->
  exists w', _compute_proof_of_knowledge w = (Ok tt, w').
Proof.
  intros Hc Hi Hs Hn.
  unfold _compute_proof_of_knowledge, pok_nonce in *. run. unfold randbits.
  rewrite Hc. cbn [self rng].
  assert (exists ib, to_bytes_1 (index (self w)) = Ok ib) as [ib ->].
  { unfold to_bytes_1.
    destruct (Z.ltb_spec (index (self w)) 0) as [?|_]; [lia|].
    destruct (Byte.of_N (Z.to_N (index (self w)))) as [b|] eqn:E; [eauto|].
    apply Byte.of_N_None_iff in E. lia. }
  rewrite Hs, Hn. eauto.
Qed.

Lemma compute_coefficient_commitments_run (w w' : World) :
  _compute_coefficient_commitments w = (Ok tt, w') ->
  exists c cs,
    coefficients (self w) = Some (c :: cs)
    /\ w' = mkWorld
              (set_coefficient_commitments
                 (Some (map (fun a => pmul a G) (c :: cs))) (self w))
              (rng w).
Proof.
  unfold _compute_coefficient_commitments. run.
  destruct (coefficients (self w)) as [[|c cs]|]; try discriminate.
  intros [= <-]. eauto.
Qed.

Lemma init_keygen_lengths (w w' : World) :
  init_keygen w = (Ok tt, w') ->
  both_of_length (self w') (threshold (self w'))
  /\ threshold (self w') = threshold (self w).
Proof.
  unfold init_keygen. unfold bind at 1.
  destruct (generate_polynomial_run w) as (cs & r & -> & Hlen).
  unfold bind at 1.
  destruct (_compute_proof_of_knowledge _) as [[e|[]] w1] eqn:Hpok;
    [discriminate|].
  apply compute_proof_of_knowledge_run in Hpok
    as (a_0 & rest & ib & sb & nb & Hc & _ & _ & _ & ->).
  cbn [self set_coefficients coefficients] in Hc. injection Hc as ->.
  intros H. apply compute_coefficient_commitments_run in H
    as (c & cs' & Hc & ->).
  cbn in Hc. injection Hc as <- <-.
  cbn [self set_coefficient_commitments set_proof_of_knowledge
         set_coefficients threshold coefficients coefficient_commitments].
  split; [|reflexivity].
  eexists _, _. repeat split.
  - unfold len. cbn [List.length] in *. lia.
  - unfold len. cbn [map List.length] in *. rewrite ?length_map. lia.
Qed.

Lemma init_refresh_lengths (w w' : World) :
  1 <= threshold (self w) ->
  init_refresh w = (Ok tt, w') ->
  both_of_length (self w') (threshold (self w'))
  /\ threshold (self w') = threshold (self w).
Proof.
  intros Ht. unfold init_refresh. unfold bind at 1.
  destruct (generate_refresh_polynomial_run w) as (cs & r & -> & Hlen).
  intros H. apply compute_coefficient_commitments_run in H
    as (c & cs' & Hc & ->).
  cbn in Hc. injection Hc as <- <-.
  cbn [self set_coefficient_commitments set_coefficients threshold
         coefficients coefficient_commitments].
  split; [|reflexivity].
  eexists _, _. repeat split.
  - unfold len. cbn [List.length]. lia.
  - unfold len. cbn [map List.length]. rewrite ?length_map. lia.
Qed.

Lemma init_threshold_increase_lengths (w w' : World) (new_t : Z) :
  init_threshold_increase new_t w = (Ok tt, w') ->
  threshold (self w) < new_t
  /\ threshold (self w') = new_t
  /\ both_of_length (self w') (new_t - 1).
Proof.
  unfold init_threshold_increase. unfold bind at 1, gets at 1.
  destruct (Z.leb_spec new_t (threshold (self w))) as [?|Hlt];
    [discriminate|].
  unfold bind at 1.
  destruct (generate_threshold_increase_polynomial_run w new_t)
    as (cs & r & -> & Hlen).
  unfold bind at 1.
  destruct (_compute_proof_of_knowledge _) as [[e|[]] w1] eqn:Hpok;
    [discriminate|].
  apply compute_proof_of_knowledge_run in Hpok
    as (a_0 & rest & ib & sb & nb & Hc & _ & _ & _ & ->).
  cbn [self set_coefficients coefficients] in Hc. injection Hc as ->.
  unfold bind at 1.
  destruct (_compute_coefficient_commitments _) as [[e|[]] w2] eqn:Hcc;
    [discriminate|].
  apply compute_coefficient_commitments_run in Hcc as (c & cs' & Hc & ->).
  cbn in Hc. injection Hc as <- <-.
  unfold modify. intros [= <-].
  cbn [self set_coefficient_commitments set_proof_of_knowledge
         set_coefficients set_threshold threshold coefficients
         coefficient_commitments].
  split; [assumption|]. split; [reflexivity|].
  eexists _, _. repeat split.
  - unfold len. cbn [List.length] in *. lia.
  - unfold len. cbn [map List.length] in *. rewrite ?length_map. lia.
Qed.

(** C3, as the code has it: after [init_keygen] returns, and after
    [init_refresh] returns on a threshold of at least one, the coefficients
    and their commitments both have [threshold] entries; after
    [init_threshold_increase new_t] returns the stored threshold is [new_t]
    and both tuples have [new_t - 1] entries, one fewer than the
    threshold. *)
Theorem coefficient_lengths (w w' : World) :
  (init_keygen w = (Ok tt, w') ->
   both_of_length (self w') (threshold (self w')))
  /\ (1 <= threshold (self w) ->
      init_refresh w = (Ok tt, w') ->
      both_of_length (self w') (threshold (self w')))
  /\ (forall new_t,
        init_threshold_increase new_t w = (Ok tt, w') ->
        threshold (self w') = new_t
        /\ both_of_length (self w') (threshold (self w') - 1)).
Proof.
  split; [|split].
  - intros H. now apply init_keygen_lengths in H.
  - intros Ht H. now apply init_refresh_lengths in H.
  - intros new_t H. apply init_threshold_increase_lengths in H
      as (_ & Ht & Hb).
    split; [assumption|]. now rewrite Ht.
Qed.

(** *** Threshold increase *)

Lemma increase_threshold_run (w w' : World) (other_shares : list Z) :
  increase_threshold other_shares w = (Ok tt, w') ->
  exists own s_i own_share,
    shares (self w) = Some own
    /\ aggregate_share (self w) = Some s_i
    /\ getitem own (index (self w) - 1) = Ok own_share
    /\ w' = mkWorld
              (set_aggregate_share
                 (Some (s_i
                        + ((own_share + sum other_shares) mod Q
                           * index (self w)) mod Q))
                 (self w))
              (rng w).
Proof.
  unfold increase_threshold. intros H. run.
  destruct (shares (self w)) as [[|s0 own]|]; try discriminate.
  destruct (aggregate_share (self w)) as [s_i|]; [|discriminate].
  destruct (s_i =? 0); [discriminate|].
  destruct (getitem (s0 :: own) (index (self w) - 1)) as [e|own_share]
    eqn:Hg; [discriminate|].
  injection H as <-. eauto 8.
Qed.

(** What [increase_threshold] stores is congruent to the reduced sum, and
    lies in [[s_i, s_i + Q)]. *)
Lemma increase_threshold_stores (w w' : World) (other_shares : list Z) :
  increase_threshold other_shares w = (Ok tt, w') ->
  exists own s_i own_share s_new,
    shares (self w) = Some own
    /\ aggregate_share (self w) = Some s_i
    /\ getitem own (index (self w) - 1) = Ok own_share
    /\ aggregate_share (self w') = Some s_new
    /\ s_new mod Q
       = (s_i + (own_share + sum other_shares) mod Q * index (self w))
         mod Q
    /\ s_i <= s_new < s_i + Q.
Proof.
  intros H. apply increase_threshold_run in H
    as (own & s_i & own_share & Hs & Ha & Hg & ->).
  exists own, s_i, own_share,
    (s_i + ((own_share + sum other_shares) mod Q * index (self w)) mod Q).
  do 4 (split; [assumption || reflexivity|]). split.
  - now rewrite Z.add_mod_idemp_r by apply Q_neq_0.
  - pose proof (Z.mod_pos_bound
                  ((own_share + sum other_shares) mod Q * index (self w))
                  Q Q_pos). lia.
Qed.

(** [increase_threshold] raises on its checks exactly when the shares are
    unset or empty, or the aggregate share is unset or zero. *)
Lemma increase_threshold_checks (w : World) (other_shares : list Z) :
  (shares (self w) = None \/ shares (self w) = Some []
   \/ aggregate_share (self w) = None
   \/ aggregate_share (self w) = Some 0)
  <-> exists msg,
        In msg ["Participant's shares have not been initialized.";
                "Participant's aggregate share has not been initialized."]
        /\ increase_threshold other_shares w = (Err (ValueError msg), w).
Proof.
  unfold increase_threshold. run. split.
  - intros [->|[->|[H|H]]]; [cbn; eauto|cbn; eauto| |].
    + destruct (shares (self w)) as [[|s0 own]|]; rewrite ?H; cbn; eauto.
    + destruct (shares (self w)) as [[|s0 own]|]; rewrite ?H; cbn; eauto.
  - intros (msg & Hin & H).
    destruct (shares (self w)) as [[|s0 own]|];
      [now right; left| |now left].
    destruct (aggregate_share (self w)) as [s_i|];
      [|now right; right; left].
    destruct (Z.eqb_spec s_i 0) as [Hz|Hne];
      [subst s_i; now right; right; right|].
    exfalso. unfold getitem in H.
    destruct (_ <? 0); [|destruct (nth_error _ _)]; try discriminate;
      injection H as <-; cbn in Hin; intuition discriminate.
Qed.

(** C4, at a participant whose aggregate share is [Q - 1]: the call
    returns, and the aggregate share it stores is [Q] itself, which is not
    the reduced residue [0] the update is specified to leave. *)
Theorem increase_threshold_unreduced :
  increase_threshold [0; 0] (mkWorld (keyed (Q - 1)) counting)
  = (Ok tt, mkWorld (set_aggregate_share (Some Q) (keyed (Q - 1))) counting)
  /\ (Q - 1 + (1 + sum [0; 0]) mod Q * 1) mod Q = 0
  /\ ~ (0 <= Q < Q).
Proof.
  split; [vm_compute; reflexivity|].
  split; [vm_compute; reflexivity|]. lia.
Qed.

(** C5, at a participant whose shares are set and whose aggregate share is
    the field element [0]: the call raises the precondition error of an
    unset aggregate share. *)
Theorem increase_threshold_rejects_zero :
  shares (keyed 0) = Some [1; 2; 3]
  /\ aggregate_share (keyed 0) = Some 0
  /\ increase_threshold [0; 0] (mkWorld (keyed 0) counting)
     = (Err (ValueError
               "Participant's aggregate share has not been initialized."),
        mkWorld (keyed 0) counting).
Proof. repeat split; vm_compute; reflexivity. Qed.

(** The sibling update, [aggregate_shares] on an existing aggregate share,
    stores a reduced residue. *)
Lemma aggregate_shares_reduced (w w' : World) (other_shares : list Z)
  (s_i : Z) :
  aggregate_share (self w) = Some s_i ->
  aggregate_shares other_shares w = (Ok tt, w') ->
  exists s_new, aggregate_share (self w') = Some s_new /\ 0 <= s_new < Q.
Proof.
  intros Ha H. unfold aggregate_shares in H. run.
  destruct (shares (self w)) as [[|s0 own]|]; try discriminate.
  destruct (negb _); [discriminate|].
  destruct (negb _); [discriminate|].
  destruct (getitem _ _) as [e|own_share]; [discriminate|].
  rewrite Ha in H. injection H as <-.
  eexists. split; [reflexivity|]. apply Z.mod_pos_bound, Q_pos.
Qed.

(** *** Construction *)

(** C9, as the code has it: on integers the constructor raises nothing and
    stores them as given, whatever their range, with every other attribute
    unset; it raises [ValueError] exactly when an argument is not an
    integer. *)
Theorem init_validates_types_only (a b c : pyval) :
  (forall i t n,
      a = PyInt i -> b = PyInt t -> c = PyInt n ->
      __init__ a b c = Ok (fresh i t n))
  /\ ((exists e, __init__ a b c = Err e)
      <-> isinstance_int a && isinstance_int b && isinstance_int c = false)
  /\ (forall e, __init__ a b c = Err e ->
      e = ValueError
            "All arguments (index, threshold, participants) must be integers.").
Proof.
  split; [|split].
  - intros i t n -> -> ->. reflexivity.
  - destruct a, b, c; cbn; split; try reflexivity; try discriminate;
      try (intros [e He]; discriminate); eauto.
  - destruct a, b, c; cbn; intros e [= <-]; reflexivity.
Qed.

End Runs.

(** ** The proof of knowledge *)

Section ProofOfKnowledge.

Context {C : Collaborators} {L : CurveLaws C}.

Lemma pok_equation (k a c mu : Z) :
  peqb (pmul k G) (padd (pmul mu G) (pmul (Q - c) (pmul a G))) = true
  <-> mu mod Q = (k + a * c) mod Q.
Proof.
  rewrite peqb_eq, pmul_pmul, pmul_padd, pmul_G_inj.
  assert (Hk : k mod Q = (k + a * c + (Q - c) * a) mod Q).
  { replace (k + a * c + (Q - c) * a) with (k + a * Q) by ring.
    now rewrite Z.mod_add by apply Q_neq_0. }
  rewrite Hk. split; intros H.
  - symmetry in H. now apply mod_add_cancel_r in H.
  - rewrite <- (Z.add_mod_idemp_l mu), <- (Z.add_mod_idemp_l (k + a * c))
      by apply Q_neq_0.
    now rewrite H.
Qed.

Lemma verify_proof_of_knowledge_run (w : World) (R Phi : Point)
  (mu i : Z) (ib sb nb : bytes) :
  to_bytes_1 i = Ok ib ->
  sec_serialize Phi = Ok sb ->
  sec_serialize R = Ok nb ->
  verify_proof_of_knowledge (R, mu) Phi i w
  = (Ok (peqb R (padd (pmul mu G)
                   (pmul (Q - pok_challenge ib sb nb) Phi))), w).
Proof.
  intros Hi Hs Hn. unfold verify_proof_of_knowledge.
  cbv [bind ret lift]. now rewrite Hi, Hs, Hn.
Qed.

(** C1: once [_compute_proof_of_knowledge] has stored the pair
    [(R_i, mu_i)], [verify_proof_of_knowledge] accepts it against the
    commitment [a_0 * G] and the participant's index, and rejects the pair
    with any integer in place of [mu_i] that differs from it modulo [Q]. *)
Theorem proof_of_knowledge_round_trip (w w' : World) :
  _compute_proof_of_knowledge w = (Ok tt, w') ->
  exists a_0 rest R_i mu_i,
    coefficients (self w) = Some (a_0 :: rest)
    /\ proof_of_knowledge (self w') = Some (R_i, mu_i)
    /\ verify_proof_of_knowledge (R_i, mu_i) (pmul a_0 G)
         (index (self w')) w'
       = (Ok true, w')
    /\ forall mu',
         mu' mod Q <> mu_i mod Q ->
         verify_proof_of_knowledge (R_i, mu') (pmul a_0 G)
           (index (self w')) w'
         = (Ok false, w').
Proof.
  intros H. apply compute_proof_of_knowledge_run in H
    as (a_0 & rest & ib & sb & nb & Hc & Hi & Hs & Hn & ->).
  exists a_0, rest. eexists _, _.
  cbn [self set_proof_of_knowledge proof_of_knowledge index].
  split; [assumption|]. split; [reflexivity|]. split.
  - rewrite (verify_proof_of_knowledge_run _ _ _ _ _ ib sb nb)
      by assumption.
    do 2 f_equal. apply pok_equation.
    now rewrite Z.mod_mod by apply Q_neq_0.
  - intros mu' Hne.
    rewrite (verify_proof_of_knowledge_run _ _ _ _ _ ib sb nb)
      by assumption.
    do 2 f_equal. apply not_true_is_false. intros Heq.
    apply pok_equation in Heq. apply Hne.
    now rewrite Z.mod_mod by apply Q_neq_0.
Qed.

End ProofOfKnowledge.

(** ** Concrete runs over the integers modulo [Q] *)

Lemma Zq_laws : CurveLaws Zq.
Proof.
  split; cbn [Point pmul padd peqb G Zq].
  - intros a b P. rewrite Z.mul_mod_idemp_r by apply Q_neq_0.
    now rewrite Z.mul_assoc.
  - intros a b P. rewrite <- Z.add_mod by apply Q_neq_0.
    now rewrite Z.mul_add_distr_r.
  - intros a b. now rewrite !Z.mul_1_r.
  - intros P R. apply Z.eqb_eq.
Qed.

(** A run is determined by its result and its final world. *)
Lemma run_returns {C : Collaborators} {A : Type} (m : M A) (w : World)
  (a : A) :
  fst (m w) = Ok a -> m w = (Ok a, snd (m w)).
Proof. destruct (m w) as [r w']. cbn. now intros ->. Qed.

Lemma proof_of_knowledge_round_trip_witness :
  exists a_0 rest R_i mu_i,
    coefficients (self w_coefficients) = Some (a_0 :: rest)
    /\ proof_of_knowledge (self (snd (_compute_proof_of_knowledge
                                        w_coefficients)))
       = Some (R_i, mu_i)
    /\ verify_proof_of_knowledge (R_i, mu_i) (pmul a_0 G)
         (index (self (snd (_compute_proof_of_knowledge w_coefficients))))
         (snd (_compute_proof_of_knowledge w_coefficients))
       = (Ok true, snd (_compute_proof_of_knowledge w_coefficients))
    /\ forall mu',
         mu' mod Q <> mu_i mod Q ->
         verify_proof_of_knowledge (R_i, mu') (pmul a_0 G)
           (index (self (snd (_compute_proof_of_knowledge w_coefficients))))
           (snd (_compute_proof_of_knowledge w_coefficients))
         = (Ok false, snd (_compute_proof_of_knowledge w_coefficients)).
Proof.
  apply (@proof_of_knowledge_round_trip Zq Zq_laws w_coefficients).
  apply run_returns. vm_compute. reflexivity.
Defined.

Lemma sign_precondition_errors_witness :
  exists z, sign hello commitments [1; 2] w_signer = (Ok z, w_signer).
Proof.
  apply (proj2 (@sign_precondition_errors Zq w_signer hello commitments
                  [1; 2])).
  - intros [H|[H|[H|[(Y & H & H')|H]]]];
      try (vm_compute in H; discriminate).
    vm_compute in H. injection H as <-. vm_compute in H'. discriminate.
  - apply unique_check. vm_compute. reflexivity.
Defined.

Lemma sign_changes_nothing_witness :
  self (snd (sign hello commitments [1; 2] w_signer)) = self w_signer
  /\ aggregate_share (self (snd (sign hello commitments [1; 2] w_signer)))
     = aggregate_share (self w_signer)
  /\ nonce_pair (self (snd (sign hello commitments [1; 2] w_signer)))
     = nonce_pair (self w_signer).
Proof.
  apply (@sign_changes_nothing Zq w_signer _ hello commitments [1; 2]
           signed).
  apply run_returns. vm_compute. reflexivity.
Defined.

Lemma lagrange_coefficient_spec_witness :
  exists l1 l2,
    [1; 2; 3] = l1 ++ index (self w_signer) :: l2
    /\ _lagrange_coefficient [1; 2; 3] 0 w_signer
       = (Ok (lagrange_product (index (self w_signer)) (l1 ++ l2) 0),
          w_signer).
Proof.
  apply (proj2 (@lagrange_coefficient_spec Zq w_signer [1; 2; 3] 0)).
  - apply unique_check. vm_compute. reflexivity.
  - vm_compute. auto.
Defined.

Lemma lagrange_coefficient_outsider_witness :
  _lagrange_coefficient [1; 3] 0 w_signer
  = (Ok (lagrange_product (index (self w_signer)) [1; 3] 0), w_signer)
  /\ forall message B d_i e_i s_i Y,
       nonce_pair (self w_signer) = Some (d_i, e_i) ->
       public_key (self w_signer) = Some Y ->
       at_infinity Y = false ->
       aggregate_share (self w_signer) = Some s_i ->
       at_infinity (group_commitment message B [1; 3]) = false ->
       sign message B [1; 3] w_signer
       = (Ok (partial_signature w_signer message B [1; 3] d_i e_i s_i Y
                (lagrange_product (index (self w_signer)) [1; 3] 0)),
          w_signer).
Proof.
  apply (@lagrange_coefficient_outsider Zq w_signer [1; 3] 0).
  - apply unique_check. vm_compute. reflexivity.
  - vm_compute. intros [H|[H|[]]]; discriminate.
Defined.

Lemma repair_shares_sum_witness :
  exists lambda_i random_shares final_share,
    _lagrange_coefficient [1; 2; 3] 4 w_helper = (Ok lambda_i, w_helper)
    /\ fst (random_scalars (Z.to_nat (threshold (self w_helper) - 1))
              w_helper)
       = Ok random_shares
    /\ final_share = (lambda_i * 5 - sum random_shares) mod Q
    /\ repair_shares
         (self (snd (generate_repair_shares [1; 2; 3] 4 w_helper)))
       = Some (random_shares ++ [final_share])
    /\ len random_shares
       = threshold
           (self (snd (generate_repair_shares [1; 2; 3] 4 w_helper))) - 1
    /\ len (random_shares ++ [final_share])
       = threshold
           (self (snd (generate_repair_shares [1; 2; 3] 4 w_helper)))
    /\ sum (random_shares ++ [final_share]) mod Q = (lambda_i * 5) mod Q.
Proof.
  apply (@repair_shares_sum Zq w_helper _ [1; 2; 3] 4 5).
  - vm_compute. reflexivity.
  - vm_compute. discriminate.
  - apply run_returns. vm_compute. reflexivity.
Defined.

Lemma coefficient_lengths_witness :
  both_of_length (self (snd (init_keygen w_fresh)))
    (threshold (self (snd (init_keygen w_fresh))))
  /\ both_of_length (self (snd (init_refresh w_fresh)))
       (threshold (self (snd (init_refresh w_fresh))))
  /\ (threshold (self (snd (init_threshold_increase 3 w_fresh))) = 3
      /\ both_of_length (self (snd (init_threshold_increase 3 w_fresh)))
           (threshold (self (snd (init_threshold_increase 3 w_fresh))) - 1)).
Proof.
  split; [|split].
  - apply (proj1 (@coefficient_lengths Zq w_fresh _)).
    apply run_returns. vm_compute. reflexivity.
  - apply (proj1 (proj2 (@coefficient_lengths Zq w_fresh _))).
    + vm_compute. discriminate.
    + apply run_returns. vm_compute. reflexivity.
  - apply (proj2 (proj2 (@coefficient_lengths Zq w_fresh _)) 3).
    apply run_returns. vm_compute. reflexivity.
Defined.

(** C3 as stated fails: participant 1 of a 2-of-3 group raises its
    threshold to 3; the call returns, and the two tuples do not have
    [threshold] entries. *)
Lemma threshold_increase_lengths_differ :
  init_threshold_increase 3 w_fresh
  = (Ok tt, snd (init_threshold_increase 3 w_fresh))
  /\ ~ both_of_length (self (snd (init_threshold_increase 3 w_fresh)))
         (threshold (self (snd (init_threshold_increase 3 w_fresh)))).
Proof.
  split.
  - apply run_returns. vm_compute. reflexivity.
  - intros (cs & cms & H1 & _ & H3 & _).
    vm_compute in H1. injection H1 as <-.
    vm_compute in H3. discriminate.
Qed.

Lemma init_validates_types_only_witness :
  @__init__ Zq (PyInt 0) (PyInt 5) (PyInt 3) = Ok (fresh 0 5 3).
Proof.
  apply (proj1 (@init_validates_types_only Zq (PyInt 0) (PyInt 5)
                  (PyInt 3)) 0 5 3); reflexivity.
Defined.

(** C9 as stated fails: the index 0 and the threshold 5 are outside
    [[1, 3]], and the constructor raises nothing. *)
Lemma init_accepts_out_of_range :
  ~ (1 <= 0 <= 3) /\ ~ (1 <= 5 <= 3)
  /\ ~ exists e, @__init__ Zq (PyInt 0) (PyInt 5) (PyInt 3) = Err e.
Proof.
  split; [lia|]. split; [lia|]. intros [e H]. discriminate.
Qed.

(** *** The model at work *)

(** Key generation draws [f(x) = 1 + 2 x]; its shares are [f(1), f(2),
    f(3)]. *)
Example shares_after_keygen :
  shares (self (snd ((init_keygen ;; generate_shares) w_fresh)))
  = Some [3; 5; 7].
Proof. vm_compute. reflexivity. Qed.

(** For participant 2 in the cohort [(1, 2, 3)] the coefficient at 0 is
    [(0 - 1)(0 - 3) / ((2 - 1)(2 - 3)) = -3]. *)
Example lagrange_at_zero :
  fst (_lagrange_coefficient [1; 2; 3] 0 w_signer) = Ok (Q - 3).
Proof. vm_compute. reflexivity. Qed.

(** Both [Y] and [R] have an odd [y] in the signing run: the value returned
    is computed from [Q - d_i], [Q - e_i] and [Q - s_i]. *)
Example signed_from_negated_scalars :
  signed
  = ((Q - 11) + (Q - 13) * @binding_value Zq 2 hello commitments [1; 2]
     + (Q - 1) * (Q - 5) * @challenge_hash Zq 3 3 hello) mod Q.
Proof. vm_compute. reflexivity. Qed.

(** * Further properties *)

Ltac run_all := cbv [bind ret raise lift gets modify] in *.

(** ** Polynomials *)

Lemma poly_from_shift (cs : list Z) (x k : Z) :
  0 <= k -> poly_from (k + 1) cs x = x * poly_from k cs x.
Proof.
  revert k. induction cs as [|a cs IH]; intros k Hk; cbn [poly_from].
  - ring.
  - rewrite (IH (k + 1)) by lia. rewrite Z.pow_add_r by lia.
    rewrite Z.pow_1_r. ring.
Qed.

Lemma polynomial_cons (a : Z) (cs : list Z) (x : Z) :
  polynomial (a :: cs) x = a + x * polynomial cs x.
Proof.
  unfold polynomial. cbn [poly_from]. rewrite Z.pow_0_r.
  change (0 + 1) with (0 + 1). rewrite (poly_from_shift cs x 0) by lia.
  ring.
Qed.

Lemma horner (cs : list Z) (x : Z) :
  fold_left (fun y coefficient => (y * x + coefficient) mod Q) (rev cs) 0
  = polynomial cs x mod Q.
Proof.
  induction cs as [|a cs IH].
  - reflexivity.
  - cbn [rev]. rewrite fold_left_app. cbn [fold_left]. rewrite IH.
    rewrite polynomial_cons.
    rewrite Z.add_mod, Z.mul_mod_idemp_l, <- Z.add_mod by apply Q_neq_0.
    f_equal. ring.
Qed.

Section Shares.

Context {C : Collaborators}.

Lemma evaluate_polynomial_run (w : World) (a : Z) (cs : list Z) (x : Z) :
  coefficients (self w) = Some (a :: cs) ->
  _evaluate_polynomial x w = (Ok (polynomial (a :: cs) x mod Q), w).
Proof.
  intros Hc. unfold _evaluate_polynomial. run_all. rewrite Hc.
  now rewrite horner.
Qed.

(** X1: on initialized coefficients [_evaluate_polynomial] returns
    [a_0 + a_1 x + ... + a_(t-1) x^(t-1)] reduced modulo [Q] and changes
    nothing; on unset or empty coefficients it raises [ValueError]. *)
Theorem evaluate_polynomial_is_sum (w : World) (x : Z) :
  (forall a cs,
      coefficients (self w) = Some (a :: cs) ->
      _evaluate_polynomial x w = (Ok (polynomial (a :: cs) x mod Q), w)
      /\ 0 <= polynomial (a :: cs) x mod Q < Q)
  /\ (coefficients (self w) = None \/ coefficients (self w) = Some [] ->
      _evaluate_polynomial x w
      = (Err (ValueError "Polynomial coefficients must be initialized."),
         w)).
Proof.
  split.
  - intros a cs Hc. split; [now apply evaluate_polynomial_run|].
    apply Z.mod_pos_bound, Q_pos.
  - unfold _evaluate_polynomial. run_all. now intros [-> | ->].
Qed.

Lemma evaluate_each_run (w : World) (a : Z) (cs xs : list Z) :
  coefficients (self w) = Some (a :: cs) ->
  evaluate_each xs w
  = (Ok (map (fun x => polynomial (a :: cs) x mod Q) xs), w).
Proof.
  intros Hc. induction xs as [|x xs IH]; cbn [evaluate_each map].
  - reflexivity.
  - unfold bind at 1. rewrite (evaluate_polynomial_run w a cs x Hc).
    unfold bind at 1. now rewrite IH.
Qed.

Lemma range_from_1_nth (n j : Z) :
  1 <= j <= n -> nth_error (range_from_1 n) (Z.to_nat (j - 1)) = Some j.
Proof.
  intros Hj. unfold range_from_1.
  rewrite nth_error_map, nth_error_seq.
  destruct (Nat.ltb_spec (Z.to_nat (j - 1)) (Z.to_nat n)) as [_|?]; [|lia].
  cbn. f_equal. lia.
Qed.

(** X2: on initialized coefficients [generate_shares] stores one share per
    participant, [max(0, participants)] in all, each a residue in
    [[0, Q)]; for [1 <= j <= participants] the entry at position [j - 1] is
    the polynomial at [j] modulo [Q].  Nothing else of the object
    changes. *)
Theorem generate_shares_evaluates (w : World) (a : Z) (cs : list Z) :
  coefficients (self w) = Some (a :: cs) ->
  exists ys,
    generate_shares w
    = (Ok tt, mkWorld (set_shares (Some ys) (self w)) (rng w))
    /\ len ys = Z.max 0 (participants (self w))
    /\ Forall (fun y => 0 <= y < Q) ys
    /\ forall j,
         1 <= j <= participants (self w) ->
         getitem ys (j - 1) = Ok (polynomial (a :: cs) j mod Q).
Proof.
  intros Hc. eexists. split; [|split; [|split]].
  - unfold generate_shares. unfold bind at 1, gets at 1. rewrite Hc.
    unfold bind at 1, gets at 1. unfold bind at 1.
    rewrite (evaluate_each_run w a cs _ Hc). reflexivity.
  - unfold len, range_from_1. rewrite !length_map, length_seq. lia.
  - apply Forall_map, Forall_forall. intros x _.
    apply Z.mod_pos_bound, Q_pos.
  - intros j Hj. unfold getitem.
    destruct (Z.ltb_spec (j - 1) 0) as [?|_]; [lia|].
    destruct (Z.ltb_spec (j - 1) 0) as [?|_]; [lia|].
    rewrite nth_error_map, (range_from_1_nth _ _ Hj). reflexivity.
Qed.

Lemma generate_shares_unset (w : World) :
  coefficients (self w) = None \/ coefficients (self w) = Some [] ->
  generate_shares w
  = (Err (ValueError
            "Polynomial coefficients must be initialized before generating shares."),
     w).
Proof. unfold generate_shares. run_all. now intros [-> | ->]. Qed.

End Shares.

(** ** Key generation, refresh and threshold increase, in full *)

Section Initialization.

Context {C : Collaborators}.

Lemma sampled_coefficients (n : nat) (w : World) (f : list Z -> list Z) :
  exists rs r,
    (cs <- random_scalars n ;; modify (set_coefficients (Some (f cs)))) w
    = (Ok tt, mkWorld (set_coefficients (Some (f rs)) (self w)) r)
    /\ List.length rs = n
    /\ Forall (fun c => 0 <= c < Q) rs.
Proof.
  destruct (random_scalars_run n w) as (rs & Hrun & Hlen & Hall).
  exists rs. eexists. run_all. rewrite Hrun. cbn [self rng]. auto.
Qed.

Lemma proof_then_commitments (w w' : World) :
  (_compute_proof_of_knowledge ;; _compute_coefficient_commitments) w
  = (Ok tt, w') ->
  exists a cs,
    coefficients (self w) = Some (a :: cs)
    /\ coefficients (self w') = Some (a :: cs)
    /\ coefficient_commitments (self w')
       = Some (map (fun c => pmul c G) (a :: cs))
    /\ proved (self w') (pok_nonce w)
    /\ index (self w') = index (self w)
    /\ threshold (self w') = threshold (self w).
Proof.
  unfold bind at 1.
  destruct (_compute_proof_of_knowledge w) as [[e|[]] w1] eqn:Hpok;
    [discriminate|].
  apply compute_proof_of_knowledge_run in Hpok
    as (a & cs & ib & sb & nb & Hc & Hi & Hs & Hn & ->).
  intros H. apply compute_coefficient_commitments_run in H
    as (c & cs' & Hc' & ->).
  cbn [self set_proof_of_knowledge coefficients] in Hc'.
  rewrite Hc in Hc'. injection Hc' as <- <-.
  exists a, cs. split; [assumption|].
  cbn [self set_coefficient_commitments set_proof_of_knowledge coefficients
         coefficient_commitments index threshold].
  repeat split; try assumption.
  exists a, cs, ib, sb, nb.
  cbn [set_coefficient_commitments set_proof_of_knowledge coefficients
         proof_of_knowledge index].
  auto.
Qed.

Lemma init_keygen_run (w w' : World) :
  init_keygen w = (Ok tt, w') ->
  committed (self w')
  /\ (exists k, proved (self w') k)
  /\ index (self w') = index (self w).
Proof.
  unfold init_keygen, _generate_polynomial. unfold bind at 1.
  unfold bind at 1, gets at 1.
  destruct (sampled_coefficients (Z.to_nat (threshold (self w))) w
              (fun cs => cs)) as (rs & r & Hrun & _ & Hall).
  cbv beta in Hrun. rewrite Hrun. intros H.
  apply proof_then_commitments in H
    as (a & cs & Hc & Hc' & Hcm & Hp & Hi & _).
  cbn [self set_coefficients coefficients index] in Hc, Hi.
  injection Hc as ->.
  split; [|split; [eauto|assumption]].
  exists a, cs. auto.
Qed.

Lemma init_refresh_run (w w' : World) :
  init_refresh w = (Ok tt, w') ->
  committed (self w')
  /\ exists cs, coefficients (self w') = Some (0 :: cs).
Proof.
  unfold init_refresh, _generate_refresh_polynomial. unfold bind at 1.
  unfold bind at 1, gets at 1.
  destruct (sampled_coefficients (Z.to_nat (threshold (self w) - 1)) w
              (fun cs => 0 :: cs)) as (rs & r & Hrun & _ & Hall).
  cbv beta in Hrun. rewrite Hrun. intros H.
  apply compute_coefficient_commitments_run in H as (c & cs & Hc & ->).
  cbn [self set_coefficients coefficients] in Hc. injection Hc as <- <-.
  cbn [self set_coefficient_commitments set_coefficients].
  split; [|exists rs; reflexivity].
  exists 0, rs. repeat split.
  constructor; [|assumption]. pose proof Q_pos. lia.
Qed.

Lemma init_threshold_increase_run (w w' : World) (new_t : Z) :
  init_threshold_increase new_t w = (Ok tt, w') ->
  committed (self w')
  /\ (exists k, proved (self w') k)
  /\ index (self w') = index (self w).
Proof.
  unfold init_threshold_increase, _generate_threshold_increase_polynomial.
  unfold bind at 1, gets at 1.
  destruct (new_t <=? threshold (self w)); [discriminate|].
  unfold bind at 1.
  destruct (sampled_coefficients (Z.to_nat (new_t - 1)) w (fun cs => cs))
    as (rs & r & Hrun & _ & Hall).
  cbv beta in Hrun. rewrite Hrun.
  unfold bind at 1.
  destruct (_compute_proof_of_knowledge _) as [[e|[]] w1] eqn:Hpok;
    [discriminate|].
  unfold bind at 1.
  destruct (_compute_coefficient_commitments w1) as [[e|[]] w2] eqn:Hcc;
    [discriminate|].
  assert (Hboth : (_compute_proof_of_knowledge ;;
                   _compute_coefficient_commitments)
                    (mkWorld (set_coefficients (Some rs) (self w)) r)
                  = (Ok tt, w2)).
  { unfold bind. now rewrite Hpok. }
  apply proof_then_commitments in Hboth
    as (a & cs & Hc & Hc' & Hcm & (a' & cs' & ib & sb & nb & Hp) & Hi & _).
  cbn [self set_coefficients coefficients index] in Hc, Hi.
  injection Hc as ->.
  unfold modify. intros [= <-]. cbn [self].
  split; [|split].
  - exists a, cs. auto.
  - exists (pok_nonce (mkWorld (set_coefficients (Some (a :: cs)) (self w))
                         r)), a', cs', ib, sb, nb.
    exact Hp.
  - exact Hi.
Qed.

(** X3: after [init_refresh] returns, the constant coefficient is [0] and
    the polynomial evaluates to [0] at [0]: the refresh adds nothing to the
    shared secret. *)
Theorem refresh_keeps_the_secret (w w' : World) :
  init_refresh w = (Ok tt, w') ->
  exists cs,
    coefficients (self w') = Some (0 :: cs)
    /\ _evaluate_polynomial 0 w' = (Ok 0, w').
Proof.
  intros H. apply init_refresh_run in H as (_ & cs & Hc).
  exists cs. split; [assumption|].
  rewrite (evaluate_polynomial_run w' 0 cs 0 Hc).
  rewrite polynomial_cons. reflexivity.
Qed.

(** X4: after [init_keygen], [init_refresh] or [init_threshold_increase]
    returns, every coefficient is a residue in [[0, Q)] and the commitment
    at each position is that coefficient times the generator. *)
Theorem commitments_match_coefficients (w w' : World) :
  init_keygen w = (Ok tt, w')
  \/ init_refresh w = (Ok tt, w')
  \/ (exists new_t, init_threshold_increase new_t w = (Ok tt, w')) ->
  exists a cs,
    coefficients (self w') = Some (a :: cs)
    /\ Forall (fun c => 0 <= c < Q) (a :: cs)
    /\ coefficient_commitments (self w')
       = Some (map (fun c => pmul c G) (a :: cs)).
Proof.
  intros [H|[H|[new_t H]]].
  - now apply init_keygen_run in H as [H _].
  - now apply init_refresh_run in H as [H _].
  - now apply init_threshold_increase_run in H as [H _].
Qed.

(** X16: on a threshold below one [init_keygen] raises the [ValueError] of
    uninitialized coefficients, and the object is not as before: its
    coefficients are now the empty tuple. *)
Theorem keygen_without_threshold (w : World) :
  threshold (self w) <= 0 ->
  init_keygen w
  = (Err (ValueError "Polynomial coefficients must be initialized."),
     mkWorld (set_coefficients (Some []) (self w)) (rng w)).
Proof.
  intros Ht. unfold init_keygen, _generate_polynomial.
  unfold _compute_proof_of_knowledge. run_all.
  replace (Z.to_nat (threshold (self w))) with 0%nat by lia.
  cbn [random_scalars]. run_all. reflexivity.
Qed.

(** X7: with coefficients set and an index outside [[0, 255]],
    [_compute_proof_of_knowledge] raises [OverflowError] and stores no
    proof; [verify_proof_of_knowledge] raises [OverflowError] on such an
    index as well. *)
Theorem proof_of_knowledge_index_is_a_byte (w : World) (i : Z) :
  ~ 0 <= i < 256 ->
  (index (self w) = i ->
   (exists a cs, coefficients (self w) = Some (a :: cs)) ->
   exists msg w',
     _compute_proof_of_knowledge w = (Err (OverflowError msg), w')
     /\ self w' = self w)
  /\ forall proof secret_commitment,
       exists msg,
         verify_proof_of_knowledge proof secret_commitment i w
         = (Err (OverflowError msg), w).
Proof.
  intros Hi.
  assert (Hb : exists msg, to_bytes_1 i = Err (OverflowError msg)).
  { unfold to_bytes_1. destruct (Z.ltb_spec i 0) as [?|Hge]; [eauto|].
    destruct (Byte.of_N (Z.to_N i)) as [b|] eqn:E; [|eauto].
    exfalso. apply Hi. split; [assumption|].
    assert (Byte.to_N b = Z.to_N i) by now apply Byte.to_of_N.
    pose proof (Byte.to_N_bounded b). lia. }
  destruct Hb as [msg Hb]. split.
  - intros Hidx (a & cs & Hc). exists msg. eexists.
    unfold _compute_proof_of_knowledge. run_all. unfold randbits.
    rewrite Hc. cbn [self rng]. rewrite Hidx, Hb. split; reflexivity.
  - intros [R mu] phi. exists msg.
    unfold verify_proof_of_knowledge. run_all. now rewrite Hb.
Qed.

End Initialization.

(** ** What the curve laws give *)

Lemma weighted_is_polynomial (cs : list Z) (i k : Z) :
  weighted_from k cs i mod Q = poly_from k cs i mod Q.
Proof.
  revert k. induction cs as [|a cs IH]; intros k;
    cbn [weighted_from poly_from]; [reflexivity|].
  rewrite Z.add_mod, Z.mul_mod_idemp_l, IH, <- Z.add_mod
    by apply Q_neq_0.
  f_equal. ring.
Qed.

Section Curve.

Context {C : Collaborators} {L : CurveLaws C}.

Lemma pmul_G_mod (a : Z) : pmul (a mod Q) G = pmul a G.
Proof. apply pmul_G_inj. apply Z.mod_mod, Q_neq_0. Qed.

Lemma peqb_pmul_G (a b : Z) :
  peqb (pmul a G) (pmul b G) = true <-> a mod Q = b mod Q.
Proof. now rewrite peqb_eq, pmul_G_inj. Qed.

(** X6: after [init_keygen] or [init_threshold_increase] returns, the
    stored proof of knowledge verifies, for any verifier, against the first
    stored coefficient commitment and the participant's index. *)
Theorem stored_proof_verifies (w w' : World) :
  init_keygen w = (Ok tt, w')
  \/ (exists new_t, init_threshold_increase new_t w = (Ok tt, w')) ->
  exists R_i mu_i phi_0 rest,
    proof_of_knowledge (self w') = Some (R_i, mu_i)
    /\ coefficient_commitments (self w') = Some (phi_0 :: rest)
    /\ forall verifier : World,
         verify_proof_of_knowledge (R_i, mu_i) phi_0 (index (self w'))
           verifier
         = (Ok true, verifier).
Proof.
  intros H.
  assert (Hrun : committed (self w') /\ exists k, proved (self w') k).
  { destruct H as [H|[new_t H]].
    - apply init_keygen_run in H. tauto.
    - apply init_threshold_increase_run in H. tauto. }
  destruct Hrun as [(a & cs & Hc & _ & Hcm)
                      (k & a' & cs' & ib & sb & nb & Hc' & Hi & Hs & Hn & Hp)].
  rewrite Hc in Hc'. injection Hc' as <- <-.
  do 4 eexists. split; [exact Hp|]. split; [exact Hcm|].
  intros v.
  rewrite (verify_proof_of_knowledge_run v _ _ _ _ ib sb nb)
    by assumption.
  do 2 f_equal. apply pok_equation.
  now rewrite Z.mod_mod by apply Q_neq_0.
Qed.

Lemma sum_cons (b : Z) (bs : list Z) : sum (b :: bs) = b + sum bs.
Proof. unfold sum at 1. cbn [fold_left]. now rewrite sum_from. Qed.

Lemma fold_padd_multiples (bs : list Z) (a : Z) :
  fold_left padd (map (fun b => pmul b G) bs) (pmul a G)
  = pmul (a + sum bs) G.
Proof.
  revert a. induction bs as [|b bs IH]; intros a; cbn [map fold_left].
  - now rewrite Z.add_0_r.
  - rewrite pmul_padd, IH, sum_cons. f_equal. ring.
Qed.

(** X12: [derive_public_key] starts from the participant's own first
    commitment and adds the others in order; on commitments [a * G] and
    [b_l * G] it returns and stores [(a + b_1 + ... + b_m) * G].  With the
    coefficient commitments unset or empty it raises [ValueError] and
    stores nothing. *)
Theorem derive_public_key_sums (w : World) (others_ : list Z) :
  (forall a rest,
      coefficient_commitments (self w) = Some (pmul a G :: rest) ->
      derive_public_key (map (fun b => pmul b G) others_) w
      = (Ok (pmul (a + sum others_) G),
         mkWorld
           (set_public_key (Some (pmul (a + sum others_) G)) (self w))
           (rng w)))
  /\ (coefficient_commitments (self w) = None
      \/ coefficient_commitments (self w) = Some [] ->
      forall commitments_,
        derive_public_key commitments_ w
        = (Err (ValueError
                  "Coefficient commitments have not been initialized or are empty."),
           w)).
Proof.
  split.
  - intros a rest Hc. unfold derive_public_key. run_all. rewrite Hc.
    now rewrite fold_padd_multiples.
  - intros [H|H] cms; unfold derive_public_key; run_all; now rewrite H.
Qed.

(** X18: [public_verification_share] raises [AttributeError] while the
    aggregate share is unset.  After [increase_threshold] it returns the
    multiple of the generator by the reduced sum
    [(s_i + delta_i * index) mod Q], although the stored integer is not
    reduced. *)
Theorem public_share_after_increase (w w' : World) (other_shares : list Z) :
  (aggregate_share (self w) = None ->
   public_verification_share w
   = (Err (AttributeError "Aggregate share has not been initialized."), w))
  /\ (increase_threshold other_shares w = (Ok tt, w') ->
      exists own s_i own_share,
        shares (self w) = Some own
        /\ aggregate_share (self w) = Some s_i
        /\ getitem own (index (self w) - 1) = Ok own_share
        /\ public_verification_share w'
           = (Ok (pmul ((s_i + (own_share + sum other_shares) mod Q
                               * index (self w)) mod Q) G), w')).
Proof.
  split.
  - intros Ha. unfold public_verification_share. run_all. now rewrite Ha.
  - intros H. apply increase_threshold_run in H
      as (own & s_i & own_share & Hs & Ha & Hg & ->).
    exists own, s_i, own_share. repeat split; try assumption.
    unfold public_verification_share. run_all.
    cbn [self set_aggregate_share aggregate_share].
    do 2 f_equal. apply pmul_G_inj.
    rewrite Z.mod_mod by apply Q_neq_0.
    now rewrite Z.add_mod_idemp_r by apply Q_neq_0.
Qed.

Context {I : IdentityLaw C}.

Lemma verify_share_loop (i : Z) (f : Z * Point -> Point -> Z * Point) :
  (forall k e c, f (k, e) c = (k + 1, padd e (pmul (i ^ k mod Q) c))) ->
  forall cs k A,
    snd (fold_left f (map (fun a => pmul a G) cs) (k, pmul A G))
    = pmul (A + weighted_from k cs i) G.
Proof.
  intros Hf cs. induction cs as [|a cs IH]; intros k A;
    cbn [map fold_left weighted_from snd].
  - now rewrite Z.add_0_r.
  - rewrite Hf, pmul_pmul, pmul_padd, IH. f_equal. ring.
Qed.

Lemma verify_share_run (w : World) (y : Z) (cs : list Z) :
  verify_share y (map (fun a => pmul a G) cs) (len cs) w
  = (Ok (peqb (pmul y G) (pmul (weighted_from 0 cs (index (self w))) G)),
     w).
Proof.
  unfold verify_share.
  replace (len (map (fun a => pmul a G) cs)) with (len cs)
    by (unfold len; now rewrite length_map).
  rewrite Z.eqb_refl. cbn [negb]. run_all.
  match goal with
  | |- context [fold_left ?f _ _] =>
      pose proof (verify_share_loop (index (self w)) f
                    (fun k e c => eq_refl) cs 0 0) as Hloop
  end.
  rewrite pmul_0_G in Hloop.
  destruct (fold_left _ _ _) as [k e]. cbn [snd] in Hloop.
  now rewrite Hloop.
Qed.

(** X5: the share one participant evaluates for another passes the
    other's [verify_share] against the commitments to the same
    coefficients, and any integer that differs from it modulo [Q] fails;
    a threshold that is not the number of commitments raises
    [ValueError]. *)
Theorem verify_share_accepts_the_evaluation (dealer verifier : World)
  (a : Z) (cs : list Z) (y : Z) :
  coefficients (self dealer) = Some (a :: cs) ->
  _evaluate_polynomial (index (self verifier)) dealer = (Ok y, dealer) ->
  verify_share y (map (fun c => pmul c G) (a :: cs)) (len (a :: cs))
    verifier
  = (Ok true, verifier)
  /\ (forall y',
        y' mod Q <> y mod Q ->
        verify_share y' (map (fun c => pmul c G) (a :: cs))
          (len (a :: cs)) verifier
        = (Ok false, verifier))
  /\ (forall y' t,
        t <> len (a :: cs) ->
        verify_share y' (map (fun c => pmul c G) (a :: cs)) t verifier
        = (Err (ValueError
                  "The number of coefficient commitments must match the threshold."),
           verifier)).
Proof.
  intros Hc Hy.
  rewrite (evaluate_polynomial_run dealer a cs _ Hc) in Hy.
  injection Hy as <-.
  assert (Hw : weighted_from 0 (a :: cs) (index (self verifier)) mod Q
               = polynomial (a :: cs) (index (self verifier)) mod Q)
    by apply weighted_is_polynomial.
  split; [|split].
  - rewrite verify_share_run. do 2 f_equal. apply peqb_pmul_G.
    rewrite Z.mod_mod by apply Q_neq_0. now rewrite Hw.
  - intros y' Hne. rewrite verify_share_run. do 2 f_equal.
    apply not_true_is_false. intros Heq. apply peqb_pmul_G in Heq.
    apply Hne. rewrite Z.mod_mod by apply Q_neq_0. now rewrite Heq, Hw.
  - intros y' t Ht. unfold verify_share.
    replace (len (map (fun c => pmul c G) (a :: cs))) with (len (a :: cs))
      by (unfold len; now rewrite length_map).
    destruct (Z.eqb_spec (len (a :: cs)) t) as [E|_]; [congruence|].
    reflexivity.
Qed.

End Curve.

(** ** Aggregation, repair and threshold change *)

Lemma fold_add_mod (o : Z) (os : list Z) (a : Z) :
  fold_left (fun acc other => (acc + other) mod Q) (o :: os) a
  = (a + sum (o :: os)) mod Q.
Proof.
  revert a o. induction os as [|o' os IH]; intros a o.
  - cbn [fold_left]. now rewrite sum_singleton.
  - change (fold_left (fun acc other => (acc + other) mod Q)
              (o :: o' :: os) a)
      with (fold_left (fun acc other => (acc + other) mod Q)
              (o' :: os) ((a + o) mod Q)).
    rewrite IH, Z.add_mod_idemp_l by apply Q_neq_0.
    rewrite (sum_cons o). f_equal. ring.
Qed.

Lemma fold_add_mod_congruent (os : list Z) (a : Z) :
  fold_left (fun acc other => (acc + other) mod Q) os a mod Q
  = (a + sum os) mod Q.
Proof.
  destruct os as [|o os].
  - cbn [fold_left]. now rewrite Z.add_0_r.
  - rewrite fold_add_mod. apply Z.mod_mod, Q_neq_0.
Qed.

Lemma congruent_by_multiple (a b k : Z) :
  a = b + k * Q -> a mod Q = b mod Q.
Proof. intros ->. apply Z_mod_plus_full. Qed.

Lemma sum_with_residue (a b c : Z) :
  (a + b * (c mod Q)) mod Q = (a + b * c) mod Q.
Proof.
  rewrite <- (Z.add_mod_idemp_r a (b * (c mod Q))) by apply Q_neq_0.
  rewrite Z.mul_mod_idemp_r by apply Q_neq_0.
  now rewrite Z.add_mod_idemp_r by apply Q_neq_0.
Qed.

Lemma line_through (d D v j s : Z) :
  (d * D) mod Q = 1 ->
  (d * ((v - j * (((s - v) * D) mod Q)) mod Q)) mod Q
  = (d * v - j * (s - v)) mod Q.
Proof.
  intros Hinv.
  rewrite Z.mul_mod_idemp_r by apply Q_neq_0.
  replace (d * (v - j * (((s - v) * D) mod Q)))
    with (d * v + - (d * j) * (((s - v) * D) mod Q)) by ring.
  rewrite sum_with_residue.
  replace (d * v + - (d * j) * ((s - v) * D))
    with (d * v + - (j * (s - v)) * (d * D)) by ring.
  rewrite <- sum_with_residue, Hinv, Z.mul_1_r.
  apply (f_equal (fun t => t mod Q)). ring.
Qed.

Lemma prod_of_zero_factor (f : Z -> Z) (L : list Z) (x : Z) :
  In x L -> f x = 0 -> prod_of f L = 0.
Proof.
  intros Hin Hf. induction L as [|j L IH]; [contradiction|].
  cbn [prod_of fold_right]. fold (prod_of f L).
  destruct Hin as [->|Hin].
  - rewrite Hf. ring.
  - rewrite IH by assumption. ring.
Qed.

Section Protocol.

Context {C : Collaborators}.

Lemma getitem_in_range {A : Type} (xs : list A) (i : Z) :
  0 <= i < len xs -> exists v, getitem xs i = Ok v.
Proof.
  intros Hi. unfold getitem.
  destruct (Z.ltb_spec i 0) as [?|_]; [lia|].
  destruct (Z.ltb_spec i 0) as [?|_]; [lia|].
  destruct (nth_error xs (Z.to_nat i)) as [v|] eqn:E; [eauto|].
  apply nth_error_None in E. unfold len in Hi. lia.
Qed.

(** X8: [aggregate_shares] returns exactly when the shares are set, the
    index is a position of theirs and the other shares number
    [participants - 1]; it then stores a value congruent modulo [Q] to the
    previous aggregate share (none counts as 0) plus the participant's own
    share plus the others.  In every other case it raises [ValueError] and
    changes nothing. *)
Theorem aggregate_shares_adds (w : World) (other_shares : list Z) :
  (forall own,
      shares (self w) = Some own ->
      1 <= index (self w) <= len own ->
      len other_shares = participants (self w) - 1 ->
      exists own_share s_new,
        getitem own (index (self w) - 1) = Ok own_share
        /\ aggregate_shares other_shares w
           = (Ok tt,
              mkWorld (set_aggregate_share (Some s_new) (self w)) (rng w))
        /\ s_new mod Q
           = (match aggregate_share (self w) with
              | Some s_i => s_i
              | None => 0
              end + own_share + sum other_shares) mod Q)
  /\ (shares (self w) = None
      \/ (exists own,
             shares (self w) = Some own
             /\ ~ 1 <= index (self w) <= len own)
      \/ len other_shares <> participants (self w) - 1 ->
      exists msg,
        aggregate_shares other_shares w = (Err (ValueError msg), w)).
Proof.
  split.
  - intros own Hs Hi Hn.
    destruct (getitem_in_range own (index (self w) - 1)) as [v Hv]; [lia|].
    exists v. unfold aggregate_shares. run_all. rewrite Hs.
    destruct own as [|s0 own]; [unfold len in Hi; cbn in Hi; lia|].
    destruct (Z.leb_spec 0 (index (self w) - 1)) as [_|?]; [|lia].
    destruct (Z.ltb_spec (index (self w) - 1) (len (s0 :: own)))
      as [_|?]; [|lia].
    cbn [andb negb]. rewrite Hn, Z.eqb_refl. cbn [negb]. rewrite Hv.
    destruct (aggregate_share (self w)) as [s_i|]; eexists;
      (split; [reflexivity|]); (split; [reflexivity|]).
    + rewrite <- Z.add_assoc, Z.mod_mod by apply Q_neq_0.
      rewrite <- Z.add_mod_idemp_r, fold_add_mod_congruent
        by apply Q_neq_0.
      now rewrite Z.add_mod_idemp_r by apply Q_neq_0.
    + apply fold_add_mod_congruent.
  - unfold aggregate_shares. run_all.
    intros [Hs|[(own & Hs & Hi)|Hn]].
    + rewrite Hs. eauto.
    + rewrite Hs. destruct own as [|s0 own]; [eauto|].
      destruct (Z.leb_spec 0 (index (self w) - 1)) as [?|?];
        [|cbn; eauto].
      destruct (Z.ltb_spec (index (self w) - 1) (len (s0 :: own)))
        as [?|?]; [lia|cbn; eauto].
    + destruct (shares (self w)) as [[|s0 own]|]; eauto.
      destruct (negb _); [eauto|].
      destruct (Z.eqb_spec (len other_shares) (participants (self w) - 1))
        as [?|_]; [contradiction|].
      cbn. eauto.
Qed.

(** X9: [aggregate_repair_shares] returns exactly when the repair shares
    are set and not empty and the other shares number [threshold - 1]; it
    then stores a value congruent modulo [Q] to the first repair share
    plus the others.  Otherwise it raises [ValueError] and changes
    nothing. *)
Theorem aggregate_repair_shares_adds (w : World) (other_shares : list Z) :
  (forall first rest,
      repair_shares (self w) = Some (first :: rest) ->
      len other_shares = threshold (self w) - 1 ->
      exists g,
        aggregate_repair_shares other_shares w
        = (Ok tt,
           mkWorld (set_aggregate_repair_share (Some g) (self w)) (rng w))
        /\ g mod Q = (first + sum other_shares) mod Q)
  /\ (repair_shares (self w) = None
      \/ repair_shares (self w) = Some []
      \/ len other_shares <> threshold (self w) - 1 ->
      exists msg,
        aggregate_repair_shares other_shares w
        = (Err (ValueError msg), w)).
Proof.
  split.
  - intros first rest Hr Hn. unfold aggregate_repair_shares. run_all.
    rewrite Hr, Hn, Z.eqb_refl. cbn [negb].
    eexists. split; [reflexivity|]. apply fold_add_mod_congruent.
  - unfold aggregate_repair_shares. run_all.
    intros [Hr|[Hr|Hn]]; try (rewrite Hr; eauto).
    destruct (repair_shares (self w)) as [[|first rest]|]; eauto.
    destruct (Z.eqb_spec (len other_shares) (threshold (self w) - 1))
      as [?|_]; [contradiction|].
    cbn. eauto.
Qed.

Lemma generate_repair_shares_run (w w' : World) (cohort : list Z)
  (l s_i : Z) :
  aggregate_share (self w) = Some s_i ->
  generate_repair_shares cohort l w = (Ok tt, w') ->
  NoDup cohort
  /\ exists rs r,
       List.length rs = Z.to_nat (threshold (self w) - 1)
       /\ w' = mkWorld
                 (set_repair_shares
                    (Some (rs ++ [(lagrange_product (index (self w))
                                     (others (index (self w)) cohort) l
                                   * s_i - sum rs) mod Q]))
                    (self w)) r.
Proof.
  intros Ha. unfold generate_repair_shares. run_all. rewrite Ha.
  destruct (NoDup_dec cohort) as [Hnd|Hnd];
    [|rewrite lagrange_coefficient_repeated by assumption; discriminate].
  rewrite lagrange_coefficient_unique by assumption.
  destruct (random_scalars_run (Z.to_nat (threshold (self w) - 1)) w)
    as (rs & Hrs & Hlen & _).
  rewrite Hrs. intros [= <-]. cbn [self rng]. eauto.
Qed.

(** X17: [generate_repair_shares] returns exactly when the aggregate share
    is set and the cohort has no repeated index; when it raises, the error
    is a [ValueError], no random bits were drawn and the object is as
    before. *)
Theorem generate_repair_shares_returns_iff (w : World) (cohort : list Z)
  (l : Z) :
  ((exists w', generate_repair_shares cohort l w = (Ok tt, w'))
   <-> aggregate_share (self w) <> None /\ NoDup cohort)
  /\ forall e w',
       generate_repair_shares cohort l w = (Err e, w') ->
       w' = w /\ exists msg, e = ValueError msg.
Proof.
  split; [split|].
  - intros [w' H].
    destruct (aggregate_share (self w)) as [s_i|] eqn:Ha.
    + destruct (generate_repair_shares_run w w' cohort l s_i Ha H)
        as [Hnd _].
      split; [discriminate|assumption].
    + unfold generate_repair_shares in H. run_all. rewrite Ha in H.
      discriminate.
  - intros [Ha Hnd].
    destruct (aggregate_share (self w)) as [s_i|] eqn:Hs; [|contradiction].
    now apply (generate_repair_shares_returns w cohort l s_i).
  - intros e w'. unfold generate_repair_shares. run_all.
    destruct (aggregate_share (self w)) as [s_i|];
      [|intros [= <- <-]; eauto].
    destruct (NoDup_dec cohort) as [Hnd|Hnd].
    + rewrite lagrange_coefficient_unique by assumption.
      destruct (random_scalars_run (Z.to_nat (threshold (self w) - 1)) w)
        as (rs & -> & _).
      discriminate.
    + rewrite lagrange_coefficient_repeated by assumption.
      intros [= <- <-]. eauto.
Qed.

End Protocol.

Section Recovery.

Context {C : Collaborators}.

Lemma length_one {A : Type} (xs : list A) :
  List.length xs = 1%nat -> exists x, xs = [x].
Proof.
  destruct xs as [|x [|y xs]]; cbn; intros H; try discriminate. eauto.
Qed.

(** X10: two helpers of threshold 2 generate repair shares for the lost
    index, each keeps its first slot and hands the second to the other,
    both aggregate, and the participant without an aggregate share repairs
    from the two aggregates: it ends with
    [(lambda_A * s_A + lambda_B * s_B) mod Q], the interpolation of the
    helpers' shares at the lost index. *)
Theorem repair_with_two_helpers (wA wB wL wA1 wB1 : World)
  (cohort : list Z) (l s_A s_B : Z) :
  aggregate_share (self wA) = Some s_A -> threshold (self wA) = 2 ->
  aggregate_share (self wB) = Some s_B -> threshold (self wB) = 2 ->
  aggregate_share (self wL) = None -> threshold (self wL) = 2 ->
  generate_repair_shares cohort l wA = (Ok tt, wA1) ->
  generate_repair_shares cohort l wB = (Ok tt, wB1) ->
  exists lambda_A lambda_B a0 a1 b0 b1 wA2 wB2 g_A g_B wL',
    _lagrange_coefficient cohort l wA = (Ok lambda_A, wA)
    /\ _lagrange_coefficient cohort l wB = (Ok lambda_B, wB)
    /\ repair_shares (self wA1) = Some [a0; a1]
    /\ repair_shares (self wB1) = Some [b0; b1]
    /\ aggregate_repair_shares [b1] wA1 = (Ok tt, wA2)
    /\ aggregate_repair_share (self wA2) = Some g_A
    /\ aggregate_repair_shares [a1] wB1 = (Ok tt, wB2)
    /\ aggregate_repair_share (self wB2) = Some g_B
    /\ repair_share [g_A; g_B] wL = (Ok tt, wL')
    /\ aggregate_share (self wL')
       = Some ((lambda_A * s_A + lambda_B * s_B) mod Q).
Proof.
  intros HsA HtA HsB HtB HsL HtL HgA HgB.
  destruct (generate_repair_shares_run wA wA1 cohort l s_A HsA HgA)
    as (Hnd & rsA & rA & HlenA & ->).
  destruct (generate_repair_shares_run wB wB1 cohort l s_B HsB HgB)
    as (_ & rsB & rB & HlenB & ->).
  rewrite HtA in HlenA. rewrite HtB in HlenB.
  apply length_one in HlenA as [a0 ->]. apply length_one in HlenB as [b0 ->].
  cbn [app].
  set (lamA := lagrange_product (index (self wA))
                 (others (index (self wA)) cohort) l).
  set (lamB := lagrange_product (index (self wB))
                 (others (index (self wB)) cohort) l).
  exists lamA, lamB, a0, ((lamA * s_A - sum [a0]) mod Q),
    b0, ((lamB * s_B - sum [b0]) mod Q).
  do 2 eexists.
  exists ((a0 + (lamB * s_B - sum [b0]) mod Q) mod Q),
    ((b0 + (lamA * s_A - sum [a0]) mod Q) mod Q).
  eexists.
  split; [now apply lagrange_coefficient_unique|].
  split; [now apply lagrange_coefficient_unique|].
  split; [reflexivity|]. split; [reflexivity|].
  split.
  { unfold aggregate_repair_shares. run_all.
    cbn [self set_repair_shares repair_shares threshold].
    rewrite HtA. reflexivity. }
  split; [reflexivity|].
  split.
  { unfold aggregate_repair_shares. run_all.
    cbn [self set_repair_shares repair_shares threshold].
    rewrite HtB. reflexivity. }
  split; [reflexivity|].
  split.
  { unfold repair_share. run_all. rewrite HsL, HtL. reflexivity. }
  cbn [self set_aggregate_share aggregate_share]. f_equal.
  rewrite !sum_cons. change (sum []) with 0. rewrite !Z.add_0_r.
  rewrite <- Z.add_mod by apply Q_neq_0.
  replace (a0 + (lamB * s_B - b0) mod Q + (b0 + (lamA * s_A - a0) mod Q))
    with ((lamB * s_B - b0) mod Q + ((lamA * s_A - a0) mod Q + (a0 + b0)))
    by ring.
  rewrite Z.add_mod_idemp_l by apply Q_neq_0.
  rewrite Z.add_assoc, (Z.add_comm (lamB * s_B - b0)).
  rewrite <- Z.add_assoc, Z.add_mod_idemp_l by apply Q_neq_0.
  f_equal. ring.
Qed.

(** X11: with the aggregate share set, [decrement_threshold] lowers the
    threshold by one and stores a residue [s'] in [[0, Q)].  When the
    revealed index is the participant's own, the difference of indexes has
    no inverse and [s'] is the revealed share reduced; when the difference
    [d] has [d^(Q-2)] for inverse modulo [Q], [d * s'] is congruent to
    [index * revealed_share - revealed_index * aggregate_share]. *)
Theorem decrement_threshold_line (w : World) (v j s_i : Z) :
  aggregate_share (self w) = Some s_i ->
  exists s',
    decrement_threshold v j w
    = (Ok tt,
       mkWorld
         (set_aggregate_share (Some s')
            (set_threshold (threshold (self w) - 1) (self w)))
         (rng w))
    /\ 0 <= s' < Q
    /\ (j = index (self w) -> s' = v mod Q)
    /\ (((index (self w) - j) * pow (index (self w) - j) (Q - 2) Q) mod Q
        = 1 ->
        ((index (self w) - j) * s') mod Q
        = (index (self w) * v - j * s_i) mod Q).
Proof.
  intros Ha.
  exists ((v - j * (((s_i - v) * pow (index (self w) - j) (Q - 2) Q) mod Q))
            mod Q).
  split; [|split; [|split]].
  - unfold decrement_threshold. run_all. rewrite Ha. reflexivity.
  - apply Z.mod_pos_bound, Q_pos.
  - intros ->. rewrite Z.sub_diag, pow_spec.
    rewrite Z.pow_0_l by (pose proof Q_pos; unfold Q in *; lia).
    rewrite Zmod_0_l, Z.mul_0_r, Zmod_0_l, Z.mul_0_r, Z.sub_0_r.
    reflexivity.
  - intros Hinv. rewrite (line_through _ _ v j s_i Hinv).
    apply (f_equal (fun t => t mod Q)). ring.
Qed.

Lemma lagrange_coefficient_quotient (w : World) (S : list Z) (x : Z) :
  NoDup S ->
  _lagrange_coefficient S x w
  = (Ok ((prod_of (fun j => x - j) (others (index (self w)) S)
          * pow (prod_of (fun j => index (self w) - j)
                   (others (index (self w)) S)) (Q - 2) Q) mod Q), w).
Proof.
  intros Hnd. unfold _lagrange_coefficient.
  apply unique_check in Hnd. rewrite Hnd. run_all.
  rewrite (lagrange_loop (index (self w)) x) by reflexivity.
  now rewrite !Z.mul_1_l.
Qed.

(** X13: on a cohort without repetition, the Lagrange coefficient
    evaluated at the index of another cohort member is [0]; evaluated at
    the caller's own index it is [1], provided the product [D] of the
    differences [index - p_j] has [D^(Q-2)] for inverse modulo [Q]. *)
Theorem lagrange_at_cohort_indexes (w : World) (S : list Z) (x : Z) :
  NoDup S -> In x S ->
  (x <> index (self w) -> _lagrange_coefficient S x w = (Ok 0, w))
  /\ (x = index (self w) ->
      (prod_of (fun j => index (self w) - j) (others (index (self w)) S)
       * pow (prod_of (fun j => index (self w) - j)
                (others (index (self w)) S)) (Q - 2) Q) mod Q = 1 ->
      _lagrange_coefficient S x w = (Ok 1, w)).
Proof.
  intros Hnd Hin. rewrite lagrange_coefficient_quotient by assumption.
  split.
  - intros Hne.
    rewrite (prod_of_zero_factor (fun j => x - j) _ x).
    + reflexivity.
    + apply filter_In. split; [assumption|].
      apply negb_true_iff, Z.eqb_neq, Hne.
    + apply Z.sub_diag.
  - intros -> Hinv. now rewrite Hinv.
Qed.

(** X14: [increase_threshold] does not test the index against the shares.
    With shares and a non-zero aggregate share set, an index whose
    position [index - 1] is outside [[-len, len)] raises [IndexError] and
    changes nothing, and the index [0] reads the last share, multiplies by
    zero and stores the aggregate share it found. *)
Theorem increase_threshold_reads_by_position (w : World)
  (other_shares : list Z) (s0 : Z) (own : list Z) (s_i : Z) :
  shares (self w) = Some (s0 :: own) ->
  aggregate_share (self w) = Some s_i ->
  s_i <> 0 ->
  (len (s0 :: own) <= index (self w) - 1
   \/ index (self w) - 1 < - len (s0 :: own) ->
   exists msg,
     increase_threshold other_shares w = (Err (IndexError msg), w))
  /\ (index (self w) = 0 ->
      increase_threshold other_shares w
      = (Ok tt, mkWorld (set_aggregate_share (Some s_i) (self w)) (rng w))).
Proof.
  intros Hs Ha Hne.
  apply Z.eqb_neq in Hne.
  split.
  - intros Hi. unfold increase_threshold. run_all.
    rewrite Hs, Ha, Hne. unfold getitem.
    destruct (Z.ltb_spec (index (self w) - 1) 0) as [Hneg|Hpos].
    + destruct (Z.ltb_spec (index (self w) - 1 + len (s0 :: own)) 0)
        as [_|?]; [eauto|lia].
    + destruct (Z.ltb_spec (index (self w) - 1) 0) as [?|_]; [lia|].
      destruct (nth_error (s0 :: own) (Z.to_nat (index (self w) - 1)))
        as [v|] eqn:E; [|eauto].
      exfalso.
      assert (Hlt : (Z.to_nat (index (self w) - 1)
                     < List.length (s0 :: own))%nat)
        by (apply nth_error_Some; congruence).
      unfold len in Hi. lia.
  - intros Hi. unfold increase_threshold. run_all.
    rewrite Hs, Ha, Hne, Hi.
    destruct (getitem_in_range (s0 :: own) (len (s0 :: own) - 1))
      as [v Hv]; [unfold len; cbn [List.length]; lia|].
    assert (Hlast : getitem (s0 :: own) (0 - 1) = Ok v).
    { unfold getitem in *.
      destruct (Z.ltb_spec (len (s0 :: own) - 1) 0) as [?|_];
        [unfold len in *; cbn [List.length] in *; lia|].
      change (0 - 1 <? 0) with true. cbv iota.
      replace (0 - 1 + len (s0 :: own)) with (len (s0 :: own) - 1) by ring.
      exact Hv. }
    rewrite Hlast.
    now rewrite Z.mul_0_r, Zmod_0_l, Z.add_0_r.
Qed.

(** X15: once its checks pass on a cohort without repetition, [sign]
    returns a residue [z] in [[0, Q)] congruent modulo [Q] to
    [+-(d_i + e_i * rho_i) +- lambda_i * s_i * c], the first sign negative
    exactly when [R.y] is odd and the second exactly when [Y.y] is odd. *)
Theorem sign_returns_the_signed_sum (w : World) (message : bytes)
  (B : list (Point * Point)) (S : list Z) (d_i e_i s_i : Z) (Y : Point) :
  nonce_pair (self w) = Some (d_i, e_i) ->
  public_key (self w) = Some Y ->
  at_infinity Y = false ->
  aggregate_share (self w) = Some s_i ->
  at_infinity (group_commitment message B S) = false ->
  NoDup S ->
  exists z lambda_i,
    _lagrange_coefficient S 0 w = (Ok lambda_i, w)
    /\ sign message B S w = (Ok z, w)
    /\ 0 <= z < Q
    /\ z mod Q
       = (parity_sign (odd_y (group_commitment message B S))
          * (d_i + e_i * binding_value (index (self w)) message B S)
          + parity_sign (odd_y Y)
            * (lambda_i * s_i
               * challenge_hash (group_commitment message B S) Y message))
         mod Q.
Proof.
  intros Hn Hk HY Ha HR Hnd. do 2 eexists.
  split; [now apply lagrange_coefficient_unique|].
  split; [now apply (sign_checked_unique w message B S d_i e_i s_i Y)|].
  split; [apply Z.mod_pos_bound, Q_pos|].
  unfold partial_signature, parity_sign.
  rewrite Z.mod_mod by apply Q_neq_0.
  generalize (binding_value (index (self w)) message B S) as rho.
  generalize (challenge_hash (group_commitment message B S) Y message)
    as c.
  generalize (lagrange_product (index (self w))
                (others (index (self w)) S) 0) as lam.
  intros lam c rho.
  destruct (odd_y (group_commitment message B S)), (odd_y Y).
  - apply (congruent_by_multiple _ _ (1 + rho + lam * c)). ring.
  - apply (congruent_by_multiple _ _ (1 + rho)). ring.
  - apply (congruent_by_multiple _ _ (lam * c)). ring.
  - apply (congruent_by_multiple _ _ 0). ring.
Qed.

End Recovery.

(** ** Queries *)

Section Queries.

Context {C : Collaborators}.

Lemma final_world {A : Type} (a r : A) (w w' : World) :
  (a, w) = (r, w') -> w' = w.
Proof. congruence. Qed.

(** X19: the methods that only compute ([_evaluate_polynomial],
    [_lagrange_coefficient], [verify_proof_of_knowledge], [verify_share],
    [public_verification_share] and [sign]) leave the object and the random
    source as they were, whether they return or raise. *)
Theorem queries_change_nothing (w w' : World) :
  (forall x r, _evaluate_polynomial x w = (r, w') -> w' = w)
  /\ (forall S x r, _lagrange_coefficient S x w = (r, w') -> w' = w)
  /\ (forall proof phi i r,
        verify_proof_of_knowledge proof phi i w = (r, w') -> w' = w)
  /\ (forall y cms t r, verify_share y cms t w = (r, w') -> w' = w)
  /\ (forall r, public_verification_share w = (r, w') -> w' = w)
  /\ (forall message B S r, sign message B S w = (r, w') -> w' = w).
Proof.
  repeat split.
  - intros x r. unfold _evaluate_polynomial. run_all.
    destruct (coefficients (self w)) as [[|a cs]|]; apply final_world.
  - intros S x r. destruct (NoDup_dec S) as [Hnd|Hnd].
    + rewrite lagrange_coefficient_unique by assumption.
      apply final_world.
    + rewrite lagrange_coefficient_repeated by assumption.
      apply final_world.
  - intros [R mu] phi i r. unfold verify_proof_of_knowledge. run_all.
    destruct (to_bytes_1 i); [apply final_world|].
    destruct (sec_serialize phi); [apply final_world|].
    destruct (sec_serialize R); apply final_world.
  - intros y cms t r. unfold verify_share.
    destruct (negb _); [apply final_world|]. run_all.
    destruct (fold_left _ _ _) as [k e]. apply final_world.
  - intros r. unfold public_verification_share. run_all.
    destruct (aggregate_share (self w)); apply final_world.
  - intros message B S r. apply sign_frame.
Qed.

End Queries.

(** ** Further concrete runs *)

Lemma Zq_identity : IdentityLaw Zq.
Proof. split. reflexivity. Qed.

Lemma evaluate_polynomial_is_sum_witness :
  _evaluate_polynomial 2 w_coefficients
  = (Ok (polynomial [7; 9] 2 mod Q), w_coefficients)
  /\ 0 <= polynomial [7; 9] 2 mod Q < Q.
Proof.
  apply (proj1 (@evaluate_polynomial_is_sum Zq w_coefficients 2) 7 [9]).
  reflexivity.
Defined.

Lemma generate_shares_evaluates_witness :
  exists ys,
    generate_shares w_coefficients
    = (Ok tt,
       mkWorld (set_shares (Some ys) (self w_coefficients))
         (rng w_coefficients))
    /\ len ys = Z.max 0 (participants (self w_coefficients))
    /\ Forall (fun y => 0 <= y < Q) ys
    /\ forall j,
         1 <= j <= participants (self w_coefficients) ->
         getitem ys (j - 1) = Ok (polynomial [7; 9] j mod Q).
Proof.
  apply (@generate_shares_evaluates Zq w_coefficients 7 [9]). reflexivity.
Defined.

Lemma refresh_keeps_the_secret_witness :
  exists cs,
    coefficients (self (snd (init_refresh w_fresh))) = Some (0 :: cs)
    /\ _evaluate_polynomial 0 (snd (init_refresh w_fresh))
       = (Ok 0, snd (init_refresh w_fresh)).
Proof.
  apply (@refresh_keeps_the_secret Zq w_fresh).
  apply run_returns. vm_compute. reflexivity.
Defined.

Lemma commitments_match_coefficients_witness :
  exists a cs,
    coefficients (self (snd (init_keygen w_fresh))) = Some (a :: cs)
    /\ Forall (fun c => 0 <= c < Q) (a :: cs)
    /\ coefficient_commitments (self (snd (init_keygen w_fresh)))
       = Some (map (fun c => pmul c G) (a :: cs)).
Proof.
  apply (@commitments_match_coefficients Zq w_fresh). left.
  apply run_returns. vm_compute. reflexivity.
Defined.

Lemma keygen_without_threshold_witness :
  init_keygen w_no_threshold
  = (Err (ValueError "Polynomial coefficients must be initialized."),
     mkWorld (set_coefficients (Some []) (self w_no_threshold))
       (rng w_no_threshold)).
Proof.
  apply (@keygen_without_threshold Zq w_no_threshold).
  vm_compute. discriminate.
Defined.

Lemma proof_of_knowledge_index_is_a_byte_witness :
  exists msg w',
    _compute_proof_of_knowledge w_wide_index
    = (Err (OverflowError msg), w')
    /\ self w' = self w_wide_index.
Proof.
  apply (proj1 (@proof_of_knowledge_index_is_a_byte Zq w_wide_index 300
                  ltac:(lia))).
  - reflexivity.
  - exists 7, [9]. reflexivity.
Defined.

Lemma stored_proof_verifies_witness :
  exists R_i mu_i phi_0 rest,
    proof_of_knowledge (self (snd (init_keygen w_fresh))) = Some (R_i, mu_i)
    /\ coefficient_commitments (self (snd (init_keygen w_fresh)))
       = Some (phi_0 :: rest)
    /\ forall verifier : World,
         verify_proof_of_knowledge (R_i, mu_i) phi_0
           (index (self (snd (init_keygen w_fresh)))) verifier
         = (Ok true, verifier).
Proof.
  apply (@stored_proof_verifies Zq Zq_laws w_fresh). left.
  apply run_returns. vm_compute. reflexivity.
Defined.

Lemma derive_public_key_sums_witness :
  derive_public_key (map (fun b => pmul b G) [4; 5])
    (snd (init_keygen w_fresh))
  = (Ok (pmul (1 + sum [4; 5]) G),
     mkWorld
       (set_public_key (Some (pmul (1 + sum [4; 5]) G))
          (self (snd (init_keygen w_fresh))))
       (rng (snd (init_keygen w_fresh)))).
Proof.
  apply (proj1 (@derive_public_key_sums Zq Zq_laws
                  (snd (init_keygen w_fresh)) [4; 5]) 1 [pmul 2 G]).
  vm_compute. reflexivity.
Defined.

Lemma public_share_after_increase_witness :
  exists own s_i own_share,
    shares (self w_keyed) = Some own
    /\ aggregate_share (self w_keyed) = Some s_i
    /\ getitem own (index (self w_keyed) - 1)
       = Ok own_share
    /\ public_verification_share
         (snd (increase_threshold [0; 0] w_keyed))
       = (Ok (pmul ((s_i + (own_share + sum [0; 0]) mod Q
                           * index (self w_keyed))
                    mod Q) G),
          snd (increase_threshold [0; 0] w_keyed)).
Proof.
  apply (proj2 (@public_share_after_increase Zq Zq_laws
                  w_keyed _ [0; 0])).
  apply run_returns. vm_compute. reflexivity.
Defined.

Lemma verify_share_accepts_the_evaluation_witness :
  verify_share (polynomial [7; 9] 2 mod Q)
    (map (fun c => pmul c G) [7; 9]) (len [7; 9]) w_signer
  = (Ok true, w_signer)
  /\ (forall y',
        y' mod Q <> (polynomial [7; 9] 2 mod Q) mod Q ->
        verify_share y' (map (fun c => pmul c G) [7; 9]) (len [7; 9])
          w_signer
        = (Ok false, w_signer))
  /\ (forall y' t,
        t <> len [7; 9] ->
        verify_share y' (map (fun c => pmul c G) [7; 9]) t w_signer
        = (Err (ValueError
                  "The number of coefficient commitments must match the threshold."),
           w_signer)).
Proof.
  apply (@verify_share_accepts_the_evaluation Zq Zq_laws Zq_identity
           w_coefficients w_signer 7 [9]).
  - reflexivity.
  - apply evaluate_polynomial_run. reflexivity.
Defined.

Lemma aggregate_shares_adds_witness :
  exists own_share s_new,
    getitem [3; 5; 7] (index (self w_shares) - 1) = Ok own_share
    /\ aggregate_shares [10; 20] w_shares
       = (Ok tt,
          mkWorld (set_aggregate_share (Some s_new) (self w_shares))
            (rng w_shares))
    /\ s_new mod Q
       = (match aggregate_share (self w_shares) with
          | Some s_i => s_i
          | None => 0
          end + own_share + sum [10; 20]) mod Q.
Proof.
  apply (proj1 (@aggregate_shares_adds Zq w_shares [10; 20]) [3; 5; 7]).
  - reflexivity.
  - vm_compute. split; discriminate.
  - vm_compute. reflexivity.
Defined.

Lemma aggregate_repair_shares_adds_witness :
  exists g,
    aggregate_repair_shares [9] w_repairing
    = (Ok tt,
       mkWorld (set_aggregate_repair_share (Some g) (self w_repairing))
         (rng w_repairing))
    /\ g mod Q = (4 + sum [9]) mod Q.
Proof.
  apply (proj1 (@aggregate_repair_shares_adds Zq w_repairing [9]) 4 [6]).
  - reflexivity.
  - vm_compute. reflexivity.
Defined.

Lemma generate_repair_shares_returns_iff_witness :
  exists w', generate_repair_shares [1; 2; 3] 4 w_helper = (Ok tt, w').
Proof.
  apply (proj2 (proj1 (@generate_repair_shares_returns_iff Zq w_helper
                         [1; 2; 3] 4))).
  split.
  - vm_compute. discriminate.
  - apply unique_check. vm_compute. reflexivity.
Defined.

Lemma repair_with_two_helpers_witness :
  exists lambda_A lambda_B a0 a1 b0 b1 wA2 wB2 g_A g_B wL',
    _lagrange_coefficient [1; 2] 3 helper_A = (Ok lambda_A, helper_A)
    /\ _lagrange_coefficient [1; 2] 3 helper_B = (Ok lambda_B, helper_B)
    /\ repair_shares
         (self (snd (generate_repair_shares [1; 2] 3 helper_A)))
       = Some [a0; a1]
    /\ repair_shares
         (self (snd (generate_repair_shares [1; 2] 3 helper_B)))
       = Some [b0; b1]
    /\ aggregate_repair_shares [b1]
         (snd (generate_repair_shares [1; 2] 3 helper_A))
       = (Ok tt, wA2)
    /\ aggregate_repair_share (self wA2) = Some g_A
    /\ aggregate_repair_shares [a1]
         (snd (generate_repair_shares [1; 2] 3 helper_B))
       = (Ok tt, wB2)
    /\ aggregate_repair_share (self wB2) = Some g_B
    /\ repair_share [g_A; g_B] lost = (Ok tt, wL')
    /\ aggregate_share (self wL')
       = Some ((lambda_A * 3 + lambda_B * 5) mod Q).
Proof.
  apply (@repair_with_two_helpers Zq helper_A helper_B lost _ _ [1; 2] 3
           3 5);
    [reflexivity | reflexivity | reflexivity | reflexivity | reflexivity
    | reflexivity
    | apply run_returns; vm_compute; reflexivity
    | apply run_returns; vm_compute; reflexivity].
Defined.

Lemma decrement_threshold_line_witness :
  exists s',
    decrement_threshold 9 3 w_helper
    = (Ok tt,
       mkWorld
         (set_aggregate_share (Some s')
            (set_threshold (threshold (self w_helper) - 1)
               (self w_helper)))
         (rng w_helper))
    /\ 0 <= s' < Q
    /\ (3 = index (self w_helper) -> s' = 9 mod Q)
    /\ (((index (self w_helper) - 3)
         * pow (index (self w_helper) - 3) (Q - 2) Q) mod Q = 1 ->
        ((index (self w_helper) - 3) * s') mod Q
        = (index (self w_helper) * 9 - 3 * 5) mod Q).
Proof.
  apply (@decrement_threshold_line Zq w_helper 9 3 5). reflexivity.
Defined.

Lemma lagrange_at_cohort_indexes_witness :
  (1 <> index (self w_signer) ->
   _lagrange_coefficient [1; 2; 3] 1 w_signer = (Ok 0, w_signer))
  /\ (1 = index (self w_signer) ->
      (prod_of (fun j => index (self w_signer) - j)
         (others (index (self w_signer)) [1; 2; 3])
       * pow (prod_of (fun j => index (self w_signer) - j)
                (others (index (self w_signer)) [1; 2; 3])) (Q - 2) Q)
      mod Q = 1 ->
      _lagrange_coefficient [1; 2; 3] 1 w_signer = (Ok 1, w_signer)).
Proof.
  apply (@lagrange_at_cohort_indexes Zq w_signer [1; 2; 3] 1).
  - apply unique_check. vm_compute. reflexivity.
  - vm_compute. auto.
Defined.

Lemma increase_threshold_reads_by_position_witness :
  (len [1; 2; 3] <= index (self w_outside) - 1
   \/ index (self w_outside) - 1 < - len [1; 2; 3] ->
   exists msg,
     increase_threshold [0; 0] w_outside
     = (Err (IndexError msg), w_outside))
  /\ (index (self w_outside) = 0 ->
      increase_threshold [0; 0] w_outside
      = (Ok tt,
         mkWorld (set_aggregate_share (Some 5) (self w_outside))
           (rng w_outside))).
Proof.
  apply (@increase_threshold_reads_by_position Zq w_outside [0; 0] 1
           [2; 3] 5).
  - reflexivity.
  - reflexivity.
  - discriminate.
Defined.

Lemma sign_returns_the_signed_sum_witness :
  exists z lambda_i,
    _lagrange_coefficient [1; 2] 0 w_signer = (Ok lambda_i, w_signer)
    /\ sign hello commitments [1; 2] w_signer = (Ok z, w_signer)
    /\ 0 <= z < Q
    /\ z mod Q
       = (parity_sign (odd_y (group_commitment hello commitments [1; 2]))
          * (11 + 13 * binding_value (index (self w_signer)) hello
                         commitments [1; 2])
          + parity_sign (@odd_y Zq 3)
            * (lambda_i * 5
               * challenge_hash (group_commitment hello commitments [1; 2])
                   3 hello))
         mod Q.
Proof.
  apply (@sign_returns_the_signed_sum Zq w_signer hello commitments [1; 2]
           11 13 5 3).
  - reflexivity.
  - reflexivity.
  - vm_compute. reflexivity.
  - reflexivity.
  - vm_compute. reflexivity.
  - apply unique_check. vm_compute. reflexivity.
Defined.

Lemma queries_change_nothing_witness :
  snd (sign hello commitments [1; 3; 3] w_signer) = w_signer.
Proof.
  apply (proj2 (proj2 (proj2 (proj2 (proj2
           (@queries_change_nothing Zq w_signer
              (snd (sign hello commitments [1; 3; 3] w_signer)))))))
           hello commitments [1; 3; 3]
           (fst (sign hello commitments [1; 3; 3] w_signer))).
  apply surjective_pairing.
Defined.

(** The repair of the lost share in the 2-of-3 group recovers
    [f(3) = 7]. *)
Example repair_recovers_the_lost_share :
  (lagrange_product 1 [2] 3 * 3 + lagrange_product 2 [1] 3 * 5) mod Q = 7.
Proof. vm_compute. reflexivity. Qed.

(** With the revealed share [f(3) = 7] of [f(x) = 1 + 2 x], participant 1
    is left with the constant term. *)
Example decrement_leaves_the_constant :
  aggregate_share (self (snd (decrement_threshold 7 3 helper_A))) = Some 1.
Proof. vm_compute. reflexivity. Qed.

(** C6 as stated fails: participant 1 of a 1-of-3 group decrements its
    threshold to 0 and keeps an aggregate share; [generate_repair_shares]
    then returns and stores one repair share, not [threshold] of them. *)
Lemma repair_shares_outnumber_threshold :
  decrement_threshold 7 3 w_single = (Ok tt, w_decremented)
  /\ threshold (self w_decremented) = 0
  /\ (exists s_i, aggregate_share (self w_decremented) = Some s_i)
  /\ generate_repair_shares [2; 3] 1 w_decremented
     = (Ok tt, snd (generate_repair_shares [2; 3] 1 w_decremented))
  /\ threshold (self (snd (generate_repair_shares [2; 3] 1 w_decremented)))
     = 0
  /\ option_map len
       (repair_shares
          (self (snd (generate_repair_shares [2; 3] 1 w_decremented))))
     = Some 1.
Proof.
  split; [apply run_returns; vm_compute; reflexivity|].
  split; [vm_compute; reflexivity|].
  split; [eexists; vm_compute; reflexivity|].
  split; [apply run_returns; vm_compute; reflexivity|].
  split; vm_compute; reflexivity.
Qed.
